(** * ui5-webcomponents: the Toast component and the upload collection

    A shallow embedding of [packages/main/src/Toast.ts] and of the
    behaviour of the upload collection that
    [packages/fiori/test/specs/UploadCollection.spec.js] exercises.

    - [JSNumber]: the JavaScript numbers the Toast computes with, as
      IEEE-754 binary64 values ([spec_float] with 53 bits of precision).
    - [Toast]: the component's fields, its methods as transformers of a
      page state (the component and the animation frames it requested),
      and its computed styles.
    - [UploadCollection]: the upload collection and its items. *)

From Stdlib Require Import ZArith Bool List String Ascii Lia.
From Stdlib Require Import Floats.SpecFloat.
Import ListNotations.

Open Scope Z_scope.

(* ================================================================== *)
(** * JavaScript numbers *)

Module JSNumber.

(** A JavaScript number is a double: binary64, round to nearest even. *)
Definition prec : Z := 53.
Definition emax : Z := 1024.

Definition number : Type := spec_float.

(** The number an integer literal or an integral property value denotes. *)
Definition of_Z (z : Z) : number := binary_normalize prec emax z 0 false.

Definition add : number -> number -> number := SFadd prec emax.
Definition sub : number -> number -> number := SFsub prec emax.
Definition div : number -> number -> number := SFdiv prec emax.

Definition ltb : number -> number -> bool := SFltb.
Definition leb : number -> number -> bool := SFleb.
Definition eqb : number -> number -> bool := SFeqb.

Definition isNaN (x : number) : bool :=
  match x with S754_nan => true | _ => false end.

Definition is_neg_zero (x : number) : bool :=
  match x with S754_zero true => true | _ => false end.

Definition is_pos_zero (x : number) : bool :=
  match x with S754_zero false => true | _ => false end.

(** [Math.min]: NaN if an argument is NaN; otherwise the arguments are
    folded from +Infinity, -0 counting as lower than +0. *)
Definition Math_min_step (lowest n : number) : number :=
  if is_neg_zero n && is_pos_zero lowest then n
  else if ltb n lowest then n else lowest.

Definition Math_min (x y : number) : number :=
  if isNaN x || isNaN y then S754_nan
  else Math_min_step (Math_min_step (S754_infinity false) x) y.

(** The sign of a number: [Some s] unless it is NaN. *)
Definition sign_of (x : number) : option bool :=
  match x with
  | S754_nan => None
  | S754_zero s | S754_infinity s | S754_finite s _ _ => Some s
  end.

(** Structural equality of two numbers. *)
Definition same_number (x y : number) : bool :=
  match x, y with
  | S754_zero s1, S754_zero s2 => Bool.eqb s1 s2
  | S754_infinity s1, S754_infinity s2 => Bool.eqb s1 s2
  | S754_nan, S754_nan => true
  | S754_finite s1 m1 e1, S754_finite s2 m2 e2 =>
      Bool.eqb s1 s2 && Pos.eqb m1 m2 && Z.eqb e1 e2
  | _, _ => false
  end.

(** The bit length of a mantissa, a left shift of one, and the double
    of a positive integer [c] of at most 53 bits: the mantissa is [c]
    brought to 53 bits. *)
Definition digits (p : positive) : Z := Zpos (digits2_pos p).

Definition shl (c : positive) (n : Z) : positive :=
  match n with Zpos k => Pos.iter xO c k | _ => c end.

Definition double_of_pos (s : bool) (c : positive) : number :=
  S754_finite s (shl c (53 - digits c)) (digits c - 53).

(** [f] holds of the [n] integers from [lo] on. *)
Fixpoint all_from (f : Z -> bool) (lo : Z) (n : nat) : bool :=
  match n with
  | O => true
  | S n' => f lo && all_from f (lo + 1) n'
  end.

(** The last stage of [binary_round_aux]: a rounded mantissa is brought
    back to 53 bits and checked against overflow. *)
Definition round_finish (s : bool) (m e : Z) : number :=
  let '(mrs, e') := shr_fexp prec emax m e loc_Exact in
  match shr_m mrs with
  | Z0 => S754_zero s
  | Zpos m' => if e' <=? emax - prec then S754_finite s m' e' else S754_infinity s
  | Zneg _ => S754_nan
  end.

(** Round to nearest, ties to even: whether the mantissa [q], cut off
    above a remainder [rho] of [n] bits, is rounded up, and the double
    that results at exponent [e]. *)
Definition round_up (q : positive) (n rho : Z) : bool :=
  (2 ^ n <? 2 * rho) || ((2 * rho =? 2 ^ n) && Z.odd (Zpos q)).

Definition rounded (q : positive) (n rho e : Z) : number :=
  if round_up q n rho
  then if Pos.eqb q 9007199254740991
       then if e + 1 <=? 971
            then S754_finite false 4503599627370496 (e + 1)
            else S754_infinity false
       else S754_finite false (Pos.succ q) e
  else S754_finite false q e.

(** The odd part of a positive integer and the number of its trailing
    zero bits. *)
Fixpoint odd_part (p : positive) : positive :=
  match p with
  | xO q => odd_part q
  | _ => p
  end.

Fixpoint trailing_zeros (p : positive) : Z :=
  match p with
  | xO q => 1 + trailing_zeros q
  | _ => 0
  end.

(** The integers a double holds: at most 53 significant bits, below
    2^1024 in magnitude. *)
Definition is_double_integer (z : Z) : bool :=
  match z with
  | Z0 => true
  | Zpos p | Zneg p => (digits (odd_part p) <=? 53) && (digits p <=? 1024)
  end.

(** Number.MAX_SAFE_INTEGER *)
Definition MAX_SAFE_INTEGER : Z := 2 ^ 53 - 1.

End JSNumber.

(* ================================================================== *)
(** * Toast.ts *)

Module Toast.
Import JSNumber.

Definition MIN_DURATION : Z := 500.
Definition MAX_DURATION : Z := 1000.

Inductive ToastPlacement : Type :=
| TopStart | TopCenter | TopEnd
| MiddleStart | MiddleCenter | MiddleEnd
| BottomStart | BottomCenter | BottomEnd.

(** The properties of the component and its [_reopen] field.  The
    [duration] validator is [Integer], so the property holds an
    integral number; it is kept as an integer and enters double
    arithmetic where [styles] divides it. *)
Record Toast : Type := mkToast {
  duration : Z;
  placement : ToastPlacement;
  open : bool;
  hover : bool;
  domRendered : bool;
  _reopen : bool
}.

Definition set_open (b : bool) (t : Toast) : Toast :=
  mkToast (duration t) (placement t) b (hover t) (domRendered t) (_reopen t).
Definition set_hover (b : bool) (t : Toast) : Toast :=
  mkToast (duration t) (placement t) (open t) b (domRendered t) (_reopen t).
Definition set_domRendered (b : bool) (t : Toast) : Toast :=
  mkToast (duration t) (placement t) (open t) (hover t) b (_reopen t).
Definition set_reopen (b : bool) (t : Toast) : Toast :=
  mkToast (duration t) (placement t) (open t) (hover t) (domRendered t) b.

(** The one callback the component hands to [requestAnimationFrame]:
    [() => { this.open = true; }]. *)
Inductive FrameCallback : Type := OpenCallback.

(** The component together with the animation-frame callbacks it has
    requested and that have not run yet, oldest first. *)
Record Page : Type := mkPage {
  this : Toast;
  frameRequests : list FrameCallback
}.

(** Methods return nothing and act on [this] and on the frame queue. *)
Definition Method : Type := Page -> Page.

Definition assign (f : Toast -> Toast) : Method :=
  fun p => mkPage (f (this p)) (frameRequests p).

Definition requestAnimationFrame (cb : FrameCallback) : Method :=
  fun p => mkPage (this p) (frameRequests p ++ [cb]).

Definition seq (m1 m2 : Method) : Method := fun p => m2 (m1 p).

Definition ifThis (c : Toast -> bool) (m1 m2 : Method) : Method :=
  fun p => if c (this p) then m1 p else m2 p.

Definition ret : Method := fun p => p.

Declare Scope method_scope.
Delimit Scope method_scope with method.
Notation "m1 ;; m2" := (seq m1 m2)
  (at level 61, right associativity) : method_scope.
Local Open Scope method_scope.

(** [super()] gives every property its default; the body sets [_reopen]. *)
Definition constructor : Page :=
  mkPage (mkToast 3000 BottomCenter false false false false) [].

Definition _initiateOpening : Method :=
  assign (set_domRendered true) ;;
  requestAnimationFrame OpenCallback.

Definition onAfterRendering : Method :=
  ifThis _reopen
    (assign (set_reopen false) ;; _initiateOpening)
    ret.

Definition show : Method :=
  ifThis open
    (assign (set_reopen true) ;; assign (set_open false))
    _initiateOpening.

Definition _ontransitionend : Method :=
  ifThis hover
    ret
    (assign (set_domRendered false) ;; assign (set_open false)).

Definition _onmouseover : Method := assign (set_hover true).

Definition _onmouseleave : Method := assign (set_hover false).

Definition runCallback (cb : FrameCallback) : Method :=
  match cb with
  | OpenCallback => assign (set_open true)
  end.

(** An animation frame: the callbacks requested so far run in the
    order of their requests. *)
Definition animationFrame : Method :=
  fun p => fold_left (fun q cb => runCallback cb q)
                     (frameRequests p) (mkPage (this p) []).

Definition effectiveDuration (t : Toast) : Z :=
  if duration t <? MIN_DURATION then MIN_DURATION else duration t.

(** A value of the style map: the empty string, the template
    [`${x}ms`] of a number, a string, or a z-index. *)
Inductive StyleValue : Type :=
| style_empty
| style_ms (x : number)
| style_text (s : string)
| style_index (z : Z).

Record RootStyles : Type := mkRootStyles {
  transition_duration : StyleValue;
  transition_delay : StyleValue;
  opacity : StyleValue;
  z_index : StyleValue
}.

(** [getNextZIndex] belongs to the base framework; [styles] takes the
    index it returns. *)
Definition styles (nextZIndex : Z) (t : Toast) : RootStyles :=
  let transitionDuration :=
    Math_min (div (of_Z (effectiveDuration t)) (of_Z 3)) (of_Z MAX_DURATION) in
  mkRootStyles
    (if open t then style_ms transitionDuration else style_empty)
    (if open t
     then style_ms (sub (of_Z (effectiveDuration t)) transitionDuration)
     else style_empty)
    (if open t && negb (hover t) then style_text "0" else style_empty)
    (style_index nextZIndex).

(** For an effective duration [e]: the delay and the transition
    duration of [styles] add up to [e], and the delay is not negative. *)
Definition delay_completes (e : Z) : bool :=
  let transitionDuration :=
    Math_min (div (of_Z e) (of_Z 3)) (of_Z MAX_DURATION) in
  let delay := sub (of_Z e) transitionDuration in
  same_number (add delay transitionDuration) (of_Z e) &&
  leb (of_Z 0) delay.

(** The operations the framework and the browser invoke on a toast. *)
Inductive Operation : Type :=
| Show | AfterRendering | TransitionEnd | MouseOver | MouseLeave
| AnimationFrame.

Definition perform (op : Operation) : Method :=
  match op with
  | Show => show
  | AfterRendering => onAfterRendering
  | TransitionEnd => _ontransitionend
  | MouseOver => _onmouseover
  | MouseLeave => _onmouseleave
  | AnimationFrame => animationFrame
  end.

Definition run (ops : list Operation) (p : Page) : Page :=
  fold_left (fun q op => perform op q) ops p.

(** [_reopen] excludes [open], and an open toast is rendered. *)
Definition invariant (t : Toast) : Prop :=
  (_reopen t = true -> open t = false) /\
  (open t = true -> domRendered t = true).

(** The transition duration [styles] computes for the effective
    duration [e]. *)
Definition transitionDuration (e : Z) : number :=
  Math_min (div (of_Z e) (of_Z 3)) (of_Z MAX_DURATION).

(** Below the cap the transition lasts a third of [e], less than the
    maximum and at least a third of the minimum duration. *)
Definition fade_below_cap (e : Z) : bool :=
  same_number (transitionDuration e) (div (of_Z e) (of_Z 3)) &&
  ltb (transitionDuration e) (of_Z MAX_DURATION) &&
  leb (div (of_Z MIN_DURATION) (of_Z 3)) (transitionDuration e).

Definition fade_at_cap (e : Z) : bool :=
  same_number (transitionDuration e) (of_Z MAX_DURATION).

Definition delay_outlasts_fade (e : Z) : bool :=
  leb (transitionDuration e) (sub (of_Z e) (transitionDuration e)).

(** Two conditions on when the environment invokes the component: no
    [show] while a re-show awaits its rendering, and no transition end
    while a requested animation frame has not run. *)
Definition permitted (op : Operation) (p : Page) : bool :=
  match op with
  | Show => negb (_reopen (this p))
  | TransitionEnd =>
      match frameRequests p with [] => true | _ :: _ => false end
  | _ => true
  end.

Fixpoint run_permitted (ops : list Operation) (p : Page) : option Page :=
  match ops with
  | [] => Some p
  | op :: ops' =>
      if permitted op p then run_permitted ops' (perform op p) else None
  end.

(** [n] calls of a method in a row. *)
Fixpoint repeat_method (n : nat) (m : Method) : Method :=
  match n with
  | O => ret
  | S n' => m ;; repeat_method n' m
  end.

(** A double [c * 2^k] less 1000 and plus 1000 again is the double. *)
Definition there_and_back (k c : Z) : bool :=
  same_number
    (add (sub (S754_finite false (Z.to_pos c) k) (of_Z MAX_DURATION)) (of_Z MAX_DURATION))
    (S754_finite false (Z.to_pos c) k).

(** The durations at which the delay and the transition duration add
    up to 16 less than the duration. *)
Definition sum_rounds_off (d : Z) : bool :=
  (2 ^ 56 + 1008 <=? d) && (d <? 2 ^ 57) && Z.odd (d / 16).

End Toast.

(* ================================================================== *)
(** * The upload collection of UploadCollection.spec.js *)

Module UploadCollection.
Local Open Scope string_scope.

(** Modelled from the spec: the file name of an upload-collection
    item and its split for editing in place.  The component
    (UploadCollectionItem) is not among the sources, only its browser
    tests are.  The extension is the substring after the last dot of
    the file name; a dot at the very start does not begin one. *)
Fixpoint beforeLastDot (s : string) : option string :=
  match s with
  | EmptyString => None
  | String c r =>
      match beforeLastDot r with
      | Some b => Some (String c b)
      | None => if Ascii.eqb c "." then Some EmptyString else None
      end
  end.

Fixpoint afterLastDot (s : string) : option string :=
  match s with
  | EmptyString => None
  | String c r =>
      match afterLastDot r with
      | Some e => Some e
      | None => if Ascii.eqb c "." then Some r else None
      end
  end.

(** Modelled from the spec: the text of the item's extension element
    (".ui5-uci-file-extension"): the last dot and what follows it, or
    nothing when the name has no dot after its first character. *)
Definition _fileExtension (fileName : string) : string :=
  match beforeLastDot fileName, afterLastDot fileName with
  | Some (String _ _), Some e => String "." e
  | _, _ => EmptyString
  end.

(** Modelled from the spec: the base name the edit input holds. *)
Definition _fileNameWithoutExtension (fileName : string) : string :=
  match beforeLastDot fileName, afterLastDot fileName with
  | Some (String c b), Some _ => String c b
  | _, _ => fileName
  end.

Fixpoint has_dot (s : string) : bool :=
  match s with
  | EmptyString => false
  | String c r => Ascii.eqb c "." || has_dot r
  end.

(** Modelled from the spec: an item of the collection, with the
    properties and the edit state the tests read. *)
Record Item : Type := mkItem {
  id : string;
  fileName : string;
  _editing : bool;
  editInput : string;
  hideDeleteButton : bool;
  disableDeleteButton : bool
}.

Definition set_fileName (n : string) (it : Item) : Item :=
  mkItem (id it) n (_editing it) (editInput it)
         (hideDeleteButton it) (disableDeleteButton it).
Definition set_editing (b : bool) (it : Item) : Item :=
  mkItem (id it) (fileName it) b (editInput it)
         (hideDeleteButton it) (disableDeleteButton it).
Definition set_editInput (v : string) (it : Item) : Item :=
  mkItem (id it) (fileName it) (_editing it) v
         (hideDeleteButton it) (disableDeleteButton it).

(** Modelled from the spec: a click on the edit (detail) button starts
    the edit; the input holds the base name, selected. *)
Definition _onDetailClick (it : Item) : Item :=
  set_editInput (_fileNameWithoutExtension (fileName it)) (set_editing true it).

(** Modelled from the spec: keys typed into the edit input replace its
    selected content. *)
Definition typeKeys (text : string) (it : Item) : Item :=
  if _editing it then set_editInput text it else it.

(** Modelled from the spec: Enter in the input confirms the rename:
    the extension of the current name is appended to what was entered. *)
Definition _onRename (it : Item) : Item :=
  if _editing it
  then set_editing false
         (set_fileName (editInput it ++ _fileExtension (fileName it)) it)
  else it.

(** Modelled from the spec: the cancel button ends the edit. *)
Definition _onRenameCancel (it : Item) : Item := set_editing false it.

(** Modelled from the spec: the keyboard during an edit, as the cancel
    test drives it.  The focus starts in the input, whose content is
    selected; Tab moves it to the rename button, then to the cancel
    button; Enter confirms in the input and on the rename button and
    cancels on the cancel button. *)
Inductive Focus : Type :=
| OnInput | OnRenameButton | OnCancelButton | Outside.

Inductive Key : Type :=
| Char (c : ascii)
| Tab
| Enter.

Record Editing : Type := mkEditing {
  edited : Item;
  focus : Focus;
  selected : bool
}.

Definition startEditing (it : Item) : Editing :=
  mkEditing (_onDetailClick it) OnInput true.

Definition pressKey (k : Key) (s : Editing) : Editing :=
  match k, focus s with
  | Char c, OnInput =>
      mkEditing
        (set_editInput
           ((if selected s then EmptyString else editInput (edited s))
            ++ String c EmptyString)
           (edited s))
        OnInput false
  | Char _, _ => s
  | Tab, OnInput => mkEditing (edited s) OnRenameButton (selected s)
  | Tab, OnRenameButton => mkEditing (edited s) OnCancelButton (selected s)
  | Tab, _ => mkEditing (edited s) Outside (selected s)
  | Enter, OnInput => mkEditing (_onRename (edited s)) Outside false
  | Enter, OnRenameButton => mkEditing (_onRename (edited s)) Outside false
  | Enter, OnCancelButton => mkEditing (_onRenameCancel (edited s)) Outside false
  | Enter, Outside => s
  end.

Definition pressKeys (ks : list Key) (s : Editing) : Editing :=
  fold_left (fun s' k => pressKey k s') ks s.

Definition keysOf (text : string) : list Key :=
  map Char (list_ascii_of_string text).

(** The modes of the inner list. *)
Inductive ListMode : Type :=
| ModeNone | SingleSelect | SingleSelectBegin | SingleSelectEnd
| SingleSelectAuto | MultiSelect | Delete.

(** Modelled from the spec: the upload collection, with the mode the
    tests set and the items they count. *)
Record Collection : Type := mkCollection {
  mode : ListMode;
  items : list Item
}.




Definition find_item (i : string) (uc : Collection) : option Item :=
  find (fun it => String.eqb (id it) i) (items uc).


End UploadCollection.

Import JSNumber Toast.

(* ================================================================== *)
(** * Toast: duration *)

(** C2. For every integer [duration], [effectiveDuration] is [duration]
    when it is at least 500 and exactly 500 when it is lower. *)
Theorem effectiveDuration_clamps_below : forall t : Toast,
  (500 <= duration t -> effectiveDuration t = duration t) /\
  (duration t < 500 -> effectiveDuration t = 500).
Proof.
  intros t. unfold effectiveDuration, MIN_DURATION.
  destruct (Z.ltb_spec (duration t) 500); split; intros; lia.
Qed.

Lemma effectiveDuration_clamps_below_witness :
  effectiveDuration (mkToast 3000 BottomCenter false false false false) = 3000 /\
  effectiveDuration (mkToast 120 BottomCenter false false false false) = 500.
Proof.
  split.
  - apply (proj1 (effectiveDuration_clamps_below
                    (mkToast 3000 BottomCenter false false false false))).
    simpl. lia.
  - apply (proj2 (effectiveDuration_clamps_below
                    (mkToast 120 BottomCenter false false false false))).
    simpl. lia.
Defined.

(* ================================================================== *)
(** * Toast: showing, re-showing and closing *)

Lemma callbacks_open : forall (q : list FrameCallback) (p0 : Page),
  this (fold_left (fun q0 cb => runCallback cb q0) (q ++ [OpenCallback]) p0)
  = set_open true (this p0).
Proof.
  induction q as [|[] q IH]; intros p0; simpl; [reflexivity|].
  rewrite IH. destruct p0 as [[] ?]; reflexivity.
Qed.

Lemma animationFrame_after_request : forall p : Page,
  this (animationFrame (requestAnimationFrame OpenCallback p)) = set_open true (this p).
Proof.
  intros [t q]. unfold animationFrame, requestAnimationFrame. simpl.
  apply callbacks_open.
Qed.

Lemma animationFrame_empties_queue : forall p : Page,
  frameRequests (animationFrame p) = [].
Proof.
  intros [t q]. unfold animationFrame. simpl.
  generalize (eq_refl : frameRequests (mkPage t []) = []).
  generalize (mkPage t []). induction q as [|[] q IH]; intros p0 H; [exact H|].
  simpl. apply IH. exact H.
Qed.

(** C5. [show] on a toast that is not open initiates opening directly:
    [domRendered] becomes true, one callback is requested, and the next
    animation frame sets [open].  [show] on an open toast sets [_reopen],
    clears [open] and requests nothing; the next [onAfterRendering]
    resets [_reopen] and initiates opening. *)
Theorem show_opens_or_reopens : forall p : Page,
  (open (this p) = false ->
     show p = _initiateOpening p /\
     domRendered (this (show p)) = true /\
     open (this (show p)) = false /\
     frameRequests (show p) = frameRequests p ++ [OpenCallback] /\
     open (this (animationFrame (show p))) = true) /\
  (open (this p) = true ->
     _reopen (this (show p)) = true /\
     open (this (show p)) = false /\
     domRendered (this (show p)) = domRendered (this p) /\
     frameRequests (show p) = frameRequests p /\
     _reopen (this (onAfterRendering (show p))) = false /\
     onAfterRendering (show p) =
       _initiateOpening (assign (set_reopen false) (show p)) /\
     domRendered (this (onAfterRendering (show p))) = true /\
     frameRequests (onAfterRendering (show p)) = frameRequests p ++ [OpenCallback] /\
     open (this (animationFrame (onAfterRendering (show p)))) = true).
Proof.
  intros [t q]. split; intros Hopen; simpl in Hopen.
  - unfold show, ifThis. simpl. rewrite Hopen.
    repeat split; try reflexivity; try assumption.
    unfold _initiateOpening, seq. rewrite animationFrame_after_request. reflexivity.
  - unfold show, onAfterRendering, ifThis. simpl. rewrite Hopen. simpl.
    repeat split; try reflexivity.
    unfold _initiateOpening, seq. rewrite animationFrame_after_request. reflexivity.
Qed.

Lemma show_opens_or_reopens_witness :
  (show constructor = _initiateOpening constructor /\
   domRendered (this (show constructor)) = true /\
   open (this (show constructor)) = false /\
   frameRequests (show constructor) = frameRequests constructor ++ [OpenCallback] /\
   open (this (animationFrame (show constructor))) = true) /\
  (let p := animationFrame (show constructor) in
   _reopen (this (show p)) = true /\
   open (this (show p)) = false /\
   domRendered (this (show p)) = domRendered (this p) /\
   frameRequests (show p) = frameRequests p /\
   _reopen (this (onAfterRendering (show p))) = false /\
   onAfterRendering (show p) =
     _initiateOpening (assign (set_reopen false) (show p)) /\
   domRendered (this (onAfterRendering (show p))) = true /\
   frameRequests (onAfterRendering (show p)) = frameRequests p ++ [OpenCallback] /\
   open (this (animationFrame (onAfterRendering (show p)))) = true).
Proof.
  split.
  - apply (proj1 (show_opens_or_reopens constructor)). reflexivity.
  - apply (proj2 (show_opens_or_reopens (animationFrame (show constructor)))).
    reflexivity.
Defined.

(** C6. [_ontransitionend] closes the toast when it is not hovered:
    [domRendered] and [open] become false and nothing else changes.
    When the toast is hovered the handler returns at once and the state
    is the one it started from. *)
Theorem ontransitionend_closes_unless_hovered : forall p : Page,
  (hover (this p) = false ->
     _ontransitionend p =
       mkPage (mkToast (duration (this p)) (placement (this p))
                       false false false (_reopen (this p)))
              (frameRequests p)) /\
  (hover (this p) = true -> _ontransitionend p = p).
Proof.
  intros [[d pl o h r ro] q]. unfold _ontransitionend, ifThis. simpl.
  split; intros ->; reflexivity.
Qed.

Lemma ontransitionend_closes_unless_hovered_witness :
  (let p := animationFrame (show constructor) in
   _ontransitionend p =
     mkPage (mkToast (duration (this p)) (placement (this p))
                     false false false (_reopen (this p)))
            (frameRequests p)) /\
  (let p := _onmouseover (animationFrame (show constructor)) in
   _ontransitionend p = p).
Proof.
  split.
  - apply (proj1 (ontransitionend_closes_unless_hovered
                    (animationFrame (show constructor)))).
    reflexivity.
  - apply (proj2 (ontransitionend_closes_unless_hovered
                    (_onmouseover (animationFrame (show constructor))))).
    reflexivity.
Defined.

(* ================================================================== *)
(** * Facts about doubles *)

Section Doubles.

Lemma SFcompare_antisym : forall (x y : spec_float) (c : comparison),
  SFcompare x y = Some c -> SFcompare y x = Some (CompOpp c).
Proof.
  intros x y c H.
  destruct x as [sx|sx| |sx mx ex], y as [sy|sy| |sy my ey];
    try discriminate H; simpl in *;
    try (destruct sx); try (destruct sy);
    inversion H; subst; clear H; try reflexivity.
  - rewrite (Z.compare_antisym ex ey).
    destruct (ex ?= ey); simpl; try reflexivity.
    rewrite CompOpp_involutive. f_equal.
    exact (Pos.compare_cont_antisym my mx Eq).
  - rewrite (Z.compare_antisym ex ey).
    destruct (ex ?= ey); simpl; try reflexivity.
    f_equal. symmetry. exact (Pos.compare_cont_antisym mx my Eq).
Qed.

Lemma leb_of_not_ltb : forall x y : number,
  isNaN x = false -> isNaN y = false -> ltb y x = false -> leb x y = true.
Proof.
  intros x y Hx Hy H. unfold ltb, leb, SFltb, SFleb in *.
  destruct (SFcompare y x) as [c|] eqn:E.
  - rewrite (SFcompare_antisym _ _ _ E).
    destruct c; simpl; try reflexivity. discriminate H.
  - destruct x, y; try discriminate; simpl in E; try discriminate;
      repeat match goal with s : bool |- _ => destruct s end; discriminate.
Qed.

(** Shifting a mantissa right keeps it non-negative. *)
Lemma shr_1_nonneg : forall mrs, 0 <= shr_m mrs -> 0 <= shr_m (shr_1 mrs).
Proof.
  intros [m r s] H. simpl in *.
  destruct m as [|[p|p|]|[p|p|]]; simpl; lia.
Qed.

Lemma iter_pos_shr_1_nonneg : forall (p : positive) mrs,
  0 <= shr_m mrs -> 0 <= shr_m (iter_pos shr_1 p mrs).
Proof.
  induction p as [p IH|p IH|]; intros mrs H; simpl.
  - apply IH, IH, shr_1_nonneg, H.
  - apply IH, IH, H.
  - apply shr_1_nonneg, H.
Qed.

Lemma shr_fexp_nonneg : forall m e l,
  0 <= m -> 0 <= shr_m (fst (shr_fexp prec emax m e l)).
Proof.
  intros m e l H. unfold shr_fexp, shr.
  assert (H0 : 0 <= shr_m (shr_record_of_loc m l))
    by (destruct l as [|[]]; exact H).
  destruct (fexp prec emax (Zdigits2 m + e) - e); simpl; try exact H0.
  apply iter_pos_shr_1_nonneg, H0.
Qed.

Lemma round_nearest_even_nonneg : forall m l,
  0 <= m -> 0 <= round_nearest_even m l.
Proof.
  intros m l H. unfold round_nearest_even.
  destruct l as [|[]]; try destruct (Z.even m); lia.
Qed.

Lemma binary_round_aux_sign : forall sx mx ex lx,
  0 <= mx -> sign_of (binary_round_aux prec emax sx mx ex lx) = Some sx.
Proof.
  intros sx mx ex lx H. unfold binary_round_aux.
  pose proof (shr_fexp_nonneg mx ex lx H) as H1.
  destruct (shr_fexp prec emax mx ex lx) as [mrs' e']. simpl in H1.
  pose proof (shr_fexp_nonneg _ e' loc_Exact
                (round_nearest_even_nonneg _ (loc_of_shr_record mrs') H1)) as H2.
  destruct (shr_fexp prec emax _ e' loc_Exact) as [mrs'' e'']. simpl in H2.
  destruct (shr_m mrs'') as [|m|m]; try reflexivity.
  - destruct (e'' <=? emax - prec); reflexivity.
  - lia.
Qed.

Lemma binary_round_sign : forall sx mx ex,
  sign_of (binary_round prec emax sx mx ex) = Some sx.
Proof.
  intros sx mx ex. unfold binary_round.
  destruct (shl_align mx ex _) as [mz ez].
  apply binary_round_aux_sign. lia.
Qed.

Lemma of_Z_sign : forall z : Z, 0 < z -> sign_of (of_Z z) = Some false.
Proof.
  intros [|p|p] H; try lia. apply binary_round_sign.
Qed.

Lemma div_eucl_quotient_nonneg : forall a (b : positive),
  0 <= a -> 0 <= fst (Z.div_eucl a (Zpos b)).
Proof.
  intros a b H.
  change (fst (Z.div_eucl a (Zpos b))) with (a / Zpos b).
  apply Z.div_pos; lia.
Qed.

(** Dividing a number that is not negative by a positive finite one
    gives a number that is not negative either (and not NaN). *)
Lemma div_sign : forall (x : number) my ey,
  sign_of x = Some false ->
  sign_of (div x (S754_finite false my ey)) = Some false.
Proof.
  intros [s|s| |s mx ex] my ey H; simpl in H; inversion H; subst;
    try reflexivity.
  unfold div, SFdiv, SFdiv_core_binary.
  set (m' := match _ - _ - _ with Z0 => _ | Zpos _ => _ | Zneg _ => _ end).
  assert (Hm : 0 <= m').
  { subst m'. destruct (_ - _ - _); try lia.
    rewrite Z.shiftl_mul_pow2 by lia. apply Z.mul_nonneg_nonneg; lia. }
  pose proof (div_eucl_quotient_nonneg m' my Hm) as Hq.
  destruct (Z.div_eucl m' (Zpos my)) as [q r]. simpl in Hq.
  apply binary_round_aux_sign, Hq.
Qed.

Lemma sign_not_nan : forall (x : number) s, sign_of x = Some s -> isNaN x = false.
Proof. intros x s H. destruct x; try reflexivity. discriminate H. Qed.

(** [Math.min] of a number that is not NaN and of a positive finite
    bound is at most the bound. *)
Lemma Math_min_le_bound : forall (x b : number),
  isNaN x = false ->
  sign_of b = Some false -> is_pos_zero b = false ->
  ltb b (S754_infinity false) = true ->
  leb (Math_min x b) b = true.
Proof.
  intros x b Hx Hb Hz Hinf.
  assert (Hbn : isNaN b = false) by (eapply sign_not_nan, Hb).
  assert (Hbb : leb b b = true).
  { apply leb_of_not_ltb; try assumption.
    unfold ltb, SFltb. destruct (SFcompare b b) as [c|] eqn:E; try reflexivity.
    pose proof (SFcompare_antisym _ _ _ E) as E'. rewrite E in E'.
    destruct c; try reflexivity. discriminate E'. }
  unfold Math_min. rewrite Hx, Hbn. simpl.
  set (l1 := Math_min_step (S754_infinity false) x).
  unfold Math_min_step at 1.
  assert (Hnz : is_neg_zero b = false)
    by (destruct b as [[]|[]| |[]]; try reflexivity; discriminate).
  rewrite Hnz. simpl.
  destruct (ltb b l1) eqn:E1; [exact Hbb|].
  subst l1. unfold Math_min_step in *. simpl in *.
  rewrite andb_false_r in *.
  destruct (ltb x (S754_infinity false)) eqn:E2.
  - apply leb_of_not_ltb; assumption.
  - rewrite Hinf in E1. discriminate E1.
Qed.

End Doubles.

(** ** Doubles of integers *)

Ltac leb_case :=
  match goal with
  | |- context [?a <=? ?b] =>
      destruct (Z.leb_spec a b); [reflexivity | unfold emax, prec in *; lia]
  end.

Section Integers.

Lemma digits_pos : forall p, 1 <= digits p.
Proof. intros p. unfold digits. lia. Qed.

Lemma digits_xO : forall p, digits (xO p) = digits p + 1.
Proof. intros p. unfold digits. simpl. lia. Qed.

Lemma digits_xI : forall p, digits (xI p) = digits p + 1.
Proof. intros p. unfold digits. simpl. lia. Qed.

Lemma iter_xO_succ : forall (k : positive) (c : positive),
  Pos.iter xO c (Pos.succ k) = xO (Pos.iter xO c k).
Proof. intros k c. apply Pos.iter_succ. Qed.

Lemma digits_iter_xO : forall (k : positive) (c : positive),
  digits (Pos.iter xO c k) = digits c + Zpos k.
Proof.
  intros k c. induction k as [|k IH] using Pos.peano_ind.
  - simpl. rewrite digits_xO. reflexivity.
  - rewrite iter_xO_succ, digits_xO, IH. lia.
Qed.

Lemma digits_shl : forall c n, 0 <= n -> digits (shl c n) = digits c + n.
Proof.
  intros c [|k|k] H; simpl; try lia. apply digits_iter_xO.
Qed.

Lemma Zpos_iter_xO : forall (k : positive) (c : positive),
  Zpos (Pos.iter xO c k) = Zpos c * 2 ^ Zpos k.
Proof.
  intros k c. induction k as [|k IH] using Pos.peano_ind.
  - simpl. lia.
  - rewrite iter_xO_succ, Pos2Z.inj_xO, IH, Pos2Z.inj_succ, Z.pow_succ_r by lia.
    lia.
Qed.

Lemma Zpos_shl : forall c n, 0 <= n -> Zpos (shl c n) = Zpos c * 2 ^ n.
Proof.
  intros c [|k|k] H; simpl shl; try lia. apply Zpos_iter_xO.
Qed.

Lemma shl_shl : forall c n m, 0 <= n -> 0 <= m -> shl (shl c n) m = shl c (n + m).
Proof.
  intros c n m Hn Hm. apply Pos2Z.inj.
  rewrite !Zpos_shl, Z.pow_add_r by lia. lia.
Qed.

Lemma shl_align_le : forall m e e', e' <= e ->
  shl_align m e e' = (shl m (e - e'), e').
Proof.
  intros m e e' H. unfold shl_align.
  destruct (e' - e) as [|d|d] eqn:E; try lia.
  - replace (e - e') with 0 by lia. replace e' with e by lia. reflexivity.
  - replace (e - e') with (Zpos d) by lia. reflexivity.
Qed.

Lemma shr_exact : forall (k : positive) (m : positive),
  iter_pos shr_1 k (Build_shr_record (Zpos (Pos.iter xO m k)) false false)
  = Build_shr_record (Zpos m) false false.
Proof.
  induction k as [k IH|k IH|]; intros m; simpl.
  - rewrite IH, IH. reflexivity.
  - rewrite IH, IH. reflexivity.
  - reflexivity.
Qed.

Lemma shr_fexp_canonical : forall m e,
  digits m = 53 -> -1074 <= e ->
  shr_fexp prec emax (Zpos m) e loc_Exact
  = (Build_shr_record (Zpos m) false false, e).
Proof.
  intros m e Hd He. unfold shr_fexp. simpl Zdigits2.
  change (Z.pos (digits2_pos m)) with (digits m). rewrite Hd.
  replace (fexp prec emax (53 + e) - e) with 0
    by (unfold fexp, SpecFloat.emin, prec, emax; lia).
  reflexivity.
Qed.

(** Rounding is the identity once the shift has brought the mantissa
    to 53 bits without losing a bit. *)
Lemma binary_round_aux_exact : forall s mx ex m e,
  shr_fexp prec emax mx ex loc_Exact = (Build_shr_record (Zpos m) false false, e) ->
  digits m = 53 -> -1074 <= e <= 971 ->
  binary_round_aux prec emax s mx ex loc_Exact = S754_finite s m e.
Proof.
  intros s mx ex m e Hs Hd He. unfold binary_round_aux.
  rewrite Hs. simpl. rewrite shr_fexp_canonical by (assumption || lia).
  simpl. leb_case.
Qed.

Lemma binary_round_integer : forall s c k,
  0 <= k -> digits c <= 53 ->
  binary_round prec emax s (shl c k) (- k) = double_of_pos s c.
Proof.
  intros s c k Hk Hc. pose proof (digits_pos c) as Hc1.
  unfold binary_round, double_of_pos.
  change (Z.pos (digits2_pos (shl c k))) with (digits (shl c k)).
  rewrite digits_shl by lia.
  replace (fexp prec emax (digits c + k + - k)) with (digits c - 53)
    by (unfold fexp, SpecFloat.emin, prec, emax; lia).
  assert (Hcan : digits (shl c (53 - digits c)) = 53)
    by (rewrite digits_shl; lia).
  destruct (Z.le_gt_cases (digits c - 53) (- k)) as [Hle|Hgt].
  - rewrite shl_align_le by lia. rewrite shl_shl by lia.
    replace (k + (- k - (digits c - 53))) with (53 - digits c) by lia.
    apply binary_round_aux_exact; [|exact Hcan|lia].
    apply shr_fexp_canonical; [exact Hcan|lia].
  - unfold shl_align.
    destruct (digits c - 53 - - k) as [|d|d] eqn:E; try lia.
    apply binary_round_aux_exact; [|exact Hcan|lia].
    unfold shr_fexp. simpl Zdigits2.
    change (Z.pos (digits2_pos (shl c k))) with (digits (shl c k)).
    rewrite digits_shl by lia.
    replace (fexp prec emax (digits c + k + - k) - - k) with (Zpos d)
      by (unfold fexp, SpecFloat.emin, prec, emax; lia).
    unfold shr. simpl shr_record_of_loc.
    replace (shl c k) with (Pos.iter xO (shl c (53 - digits c)) d).
    + rewrite shr_exact. f_equal. lia.
    + change (Pos.iter xO (shl c (53 - digits c)) d)
        with (shl (shl c (53 - digits c)) (Zpos d)).
      rewrite shl_shl by lia. f_equal. lia.
Qed.

Lemma of_Z_pos : forall c, digits c <= 53 -> of_Z (Zpos c) = double_of_pos false c.
Proof.
  intros c Hc. unfold of_Z, binary_normalize.
  exact (binary_round_integer false c 0 ltac:(lia) Hc).
Qed.

End Integers.

Section IntegerArithmetic.

Lemma digits_bounds : forall p, 2 ^ (digits p - 1) <= Zpos p < 2 ^ digits p.
Proof.
  induction p as [p IH|p IH|].
  - change (digits p~1) with (Zpos (Pos.succ (digits2_pos p))).
    rewrite Pos2Z.inj_succ. fold (digits p). pose proof (digits_pos p).
    replace (Z.succ (digits p) - 1) with (Z.succ (digits p - 1)) by lia.
    rewrite !Z.pow_succ_r by lia. lia.
  - rewrite digits_xO. pose proof (digits_pos p).
    replace (digits p + 1 - 1) with (Z.succ (digits p - 1)) by lia.
    replace (digits p + 1) with (Z.succ (digits p)) by lia.
    rewrite !Z.pow_succ_r by lia. lia.
  - simpl. lia.
Qed.

Lemma digits_le : forall p n, 0 <= n -> Zpos p < 2 ^ n -> digits p <= n.
Proof.
  intros p n Hn H. destruct (Z.le_gt_cases (digits p) n) as [|Hgt]; [assumption|].
  pose proof (digits_bounds p) as [Hlo _].
  assert (2 ^ n <= 2 ^ (digits p - 1)) by (apply Z.pow_le_mono_r; lia).
  lia.
Qed.

Lemma digits_ge : forall p n, 0 <= n -> 2 ^ n <= Zpos p -> n + 1 <= digits p.
Proof.
  intros p n Hn H. destruct (Z.le_gt_cases (n + 1) (digits p)) as [|Hgt]; [assumption|].
  pose proof (digits_bounds p) as [_ Hhi]. pose proof (digits_pos p).
  assert (2 ^ digits p <= 2 ^ n) by (apply Z.pow_le_mono_r; lia).
  lia.
Qed.

Lemma aligned_mantissa : forall c e, digits c <= 53 -> e <= digits c - 53 ->
  fst (shl_align (shl c (53 - digits c)) (digits c - 53) e) = shl c (- e).
Proof.
  intros c e Hc He. rewrite shl_align_le by lia. cbn [fst].
  rewrite shl_shl by lia. f_equal. lia.
Qed.

Lemma add_integers : forall a b : positive,
  digits a <= 53 -> digits b <= 53 -> digits (a + b) <= 53 ->
  add (double_of_pos false a) (double_of_pos false b) = double_of_pos false (a + b).
Proof.
  intros a b Ha Hb Hab. unfold add, SFadd, double_of_pos.
  set (ez := Z.min (digits a - 53) (digits b - 53)).
  assert (Hez : ez <= digits a - 53 /\ ez <= digits b - 53) by (subst ez; lia).
  rewrite !aligned_mantissa by lia. simpl cond_Zopp.
  replace (Z.pos (shl a (- ez)) + Z.pos (shl b (- ez)))
    with (Z.pos (shl (a + b) (- ez)))
    by (rewrite !Zpos_shl by lia; lia).
  simpl binary_normalize.
  replace ez with (- - ez) at 2 by lia.
  apply binary_round_integer; lia.
Qed.

Lemma sub_integers : forall a b : positive,
  digits a <= 53 -> digits b <= 53 -> (b < a)%positive ->
  sub (double_of_pos false a) (double_of_pos false b) = double_of_pos false (a - b).
Proof.
  intros a b Ha Hb Hlt. unfold sub, SFsub, double_of_pos.
  assert (Hab : digits (a - b) <= 53).
  { apply digits_le; [lia|]. pose proof (digits_bounds a).
    assert (2 ^ digits a <= 2 ^ 53) by (apply Z.pow_le_mono_r; lia). lia. }
  set (ez := Z.min (digits a - 53) (digits b - 53)).
  assert (Hez : ez <= digits a - 53 /\ ez <= digits b - 53) by (subst ez; lia).
  rewrite !aligned_mantissa by lia. simpl cond_Zopp.
  replace (Z.pos (shl a (- ez)) - Z.pos (shl b (- ez)))
    with (Z.pos (shl (a - b) (- ez)))
    by (rewrite !Zpos_shl, Pos2Z.inj_sub by lia; ring).
  simpl binary_normalize.
  replace ez with (- - ez) at 2 by lia.
  apply binary_round_integer; lia.
Qed.

Lemma add_of_Z : forall x y : Z,
  0 < x -> 0 < y -> x + y < 2 ^ 53 ->
  add (of_Z x) (of_Z y) = of_Z (x + y).
Proof.
  intros [|a|a] [|b|b] Hx Hy H; try lia.
  change (Z.pos a + Z.pos b) with (Z.pos (a + b)) in *.
  assert (digits a <= 53) by (apply digits_le; lia).
  assert (digits b <= 53) by (apply digits_le; lia).
  assert (digits (a + b) <= 53) by (apply digits_le; lia).
  rewrite !of_Z_pos by assumption. apply add_integers; assumption.
Qed.

Lemma sub_of_Z : forall x y : Z,
  0 < y -> y < x -> x < 2 ^ 53 ->
  sub (of_Z x) (of_Z y) = of_Z (x - y).
Proof.
  intros [|a|a] [|b|b] Hy Hlt H; try lia.
  assert (digits a <= 53) by (apply digits_le; lia).
  assert (digits b <= 53) by (apply digits_le; lia).
  assert (Hba : (b < a)%positive) by lia.
  replace (Z.pos a - Z.pos b) with (Z.pos (a - b)) by lia.
  assert (digits (a - b) <= 53) by (apply digits_le; lia).
  rewrite !of_Z_pos by assumption. apply sub_integers; assumption.
Qed.

End IntegerArithmetic.

Section Division.

Lemma shr_1_pos : forall r m,
  shr_m r = Zpos m -> 2 <= digits m ->
  exists m', shr_m (shr_1 r) = Zpos m' /\ digits m' = digits m - 1.
Proof.
  intros [mr rr sr] m H Hd. simpl in H. subst mr.
  destruct m as [p|p|].
  - exists p. split; [reflexivity|]. rewrite digits_xI. lia.
  - exists p. split; [reflexivity|]. rewrite digits_xO. lia.
  - exfalso. change (digits 1) with 1 in Hd. lia.
Qed.

Lemma iter_shr_pos : forall (p : positive) r m,
  shr_m r = Zpos m -> Zpos p < digits m ->
  exists m', shr_m (iter_pos shr_1 p r) = Zpos m' /\ digits m' = digits m - Zpos p.
Proof.
  induction p as [p IH|p IH|]; intros r m H Hd; cbn [iter_pos].
  - rewrite Pos2Z.inj_xI in *.
    destruct (shr_1_pos r m H ltac:(lia)) as (m1 & H1 & D1).
    destruct (IH _ m1 H1 ltac:(lia)) as (m2 & H2 & D2).
    destruct (IH _ m2 H2 ltac:(lia)) as (m3 & H3 & D3).
    exists m3. split; [exact H3|lia].
  - rewrite Pos2Z.inj_xO in *.
    destruct (IH _ m H ltac:(lia)) as (m2 & H2 & D2).
    destruct (IH _ m2 H2 ltac:(lia)) as (m3 & H3 & D3).
    exists m3. split; [exact H3|lia].
  - destruct (shr_1_pos r m H ltac:(lia)) as (m1 & H1 & D1).
    exists m1. split; [exact H1|lia].
Qed.

Lemma shr_fexp_pos : forall m e l, -1074 <= e ->
  exists m', shr_m (fst (shr_fexp prec emax (Zpos m) e l)) = Zpos m' /\
             e <= snd (shr_fexp prec emax (Zpos m) e l).
Proof.
  intros m e l He. unfold shr_fexp, shr. simpl Zdigits2.
  change (Z.pos (digits2_pos m)) with (digits m).
  assert (H0 : shr_m (shr_record_of_loc (Zpos m) l) = Zpos m)
    by (destruct l as [|[]]; reflexivity).
  destruct (fexp prec emax (digits m + e) - e) as [|p|p] eqn:E; cbn [fst snd].
  - exists m. split; [exact H0|lia].
  - assert (Hp : Zpos p < digits m)
      by (unfold fexp, SpecFloat.emin, prec, emax in E; lia).
    destruct (iter_shr_pos p _ m H0 Hp) as (m' & H' & _).
    exists m'. split; [exact H'|lia].
  - exists m. split; [exact H0|lia].
Qed.

(** Rounding a positive mantissa gives a positive number whose
    exponent is not smaller. *)
Lemma binary_round_aux_pos : forall m e l, -1074 <= e ->
  match binary_round_aux prec emax false (Zpos m) e l with
  | S754_finite false _ e' => e <= e'
  | S754_infinity false => True
  | _ => False
  end.
Proof.
  intros m e l He. unfold binary_round_aux.
  destruct (shr_fexp_pos m e l He) as (m1 & H1 & He1).
  destruct (shr_fexp prec emax (Zpos m) e l) as [mrs' e']. cbn [fst snd] in *.
  assert (Hr : exists m2, round_nearest_even (shr_m mrs') (loc_of_shr_record mrs') = Zpos m2).
  { rewrite H1. unfold round_nearest_even.
    destruct (loc_of_shr_record mrs') as [|[]]; try (eexists; reflexivity).
    destruct (Z.even (Zpos m1)); eexists; reflexivity. }
  destruct Hr as (m2 & ->).
  destruct (shr_fexp_pos m2 e' loc_Exact ltac:(lia)) as (m3 & H3 & He3).
  destruct (shr_fexp prec emax (Zpos m2) e' loc_Exact) as [mrs'' e'']. cbn [fst snd] in *.
  rewrite H3. destruct (e'' <=? emax - prec); [lia|exact I].
Qed.

(** A third of an integer from 4096 on exceeds 1000. *)
Lemma third_exceeds_maximum : forall c : positive,
  13 <= digits c <= 53 ->
  ltb (of_Z 1000) (div (double_of_pos false c) (of_Z 3)) = true.
Proof.
  intros c Hc.
  change (of_Z 3) with (S754_finite false 6755399441055744 (-51)).
  change (of_Z 1000) with (S754_finite false 8796093022208000 (-43)).
  unfold double_of_pos, div, SFdiv, SFdiv_core_binary.
  set (mx := shl c (53 - digits c)).
  assert (Hmx : Zdigits2 (Z.pos mx) = 53).
  { change (Zdigits2 (Z.pos mx)) with (digits mx). subst mx.
    rewrite digits_shl by lia. lia. }
  rewrite Hmx.
  change (Zdigits2 6755399441055744) with 53.
  set (e' := Z.min _ _).
  assert (He' : e' = digits c - 55)
    by (subst e'; unfold fexp, SpecFloat.emin, prec, emax; lia).
  rewrite He'.
  replace (digits c - 53 - -51 - (digits c - 55)) with 53 by lia.
  cbv iota.
  destruct (Z.div_eucl (Z.shiftl (Z.pos mx) 53) 6755399441055744) as [q r] eqn:E.
  assert (Hq : 1 <= q).
  { pose proof (Z_div_mod (Z.shiftl (Z.pos mx) 53) 6755399441055744 ltac:(lia)) as H.
    rewrite E in H. destruct H as [H1 H2].
    rewrite Z.shiftl_mul_pow2 in H1 by lia.
    change (2 ^ 53) with 9007199254740992 in H1. lia. }
  destruct q as [|q|q]; try lia.
  pose proof (binary_round_aux_pos q (digits c - 55)
                (new_location 6755399441055744 r) ltac:(lia)) as H.
  cbn [xorb].
  destruct (binary_round_aux prec emax false (Z.pos q) (digits c - 55) _)
    as [s|[]| |[] m e]; try contradiction; try reflexivity.
  unfold ltb, SFltb, SFcompare.
  destruct (Z.compare_spec (-43) e); try reflexivity; lia.
Qed.

End Division.

(* ================================================================== *)
(** * Toast: computed styles *)

Lemma effectiveDuration_min : forall t : Toast, 500 <= effectiveDuration t.
Proof.
  intros t. unfold effectiveDuration, MIN_DURATION.
  destruct (Z.ltb_spec (duration t) 500); lia.
Qed.

Lemma third_not_nan : forall t : Toast,
  isNaN (div (of_Z (effectiveDuration t)) (of_Z 3)) = false.
Proof.
  intros t. apply sign_not_nan with (s := false).
  change (of_Z 3) with (S754_finite false 6755399441055744 (-51)).
  apply div_sign, of_Z_sign.
  pose proof (effectiveDuration_min t). lia.
Qed.

(** C3. While the toast is open, [transition-duration] is
    [Math.min(effectiveDuration / 3, 1000)] milliseconds, which is at
    most 1000 whatever the duration. *)
Theorem transition_duration_capped : forall (nextZIndex : Z) (t : Toast),
  open t = true ->
  transition_duration (styles nextZIndex t) =
    style_ms (Math_min (div (of_Z (effectiveDuration t)) (of_Z 3)) (of_Z 1000)) /\
  leb (Math_min (div (of_Z (effectiveDuration t)) (of_Z 3)) (of_Z 1000))
      (of_Z 1000) = true.
Proof.
  intros z t Hopen. split.
  - unfold styles. simpl. rewrite Hopen. reflexivity.
  - apply Math_min_le_bound; try reflexivity. apply third_not_nan.
Qed.

Lemma transition_duration_capped_witness :
  transition_duration (styles 100 (mkToast 500 BottomCenter true false true false)) =
    style_ms (S754_finite false 5864062014805333 (-45)) /\
  transition_duration (styles 100 (mkToast 9000 BottomCenter true false true false)) =
    style_ms (of_Z 1000).
Proof.
  split.
  - exact (proj1 (transition_duration_capped 100
                    (mkToast 500 BottomCenter true false true false) eq_refl)).
  - exact (proj1 (transition_duration_capped 100
                    (mkToast 9000 BottomCenter true false true false) eq_refl)).
Defined.

(** ** The delay *)

Lemma same_number_eq : forall x y : number, same_number x y = true -> x = y.
Proof.
  intros [s1|s1| |s1 m1 e1] [s2|s2| |s2 m2 e2] H; simpl in H;
    try discriminate H; try reflexivity.
  - apply eqb_prop in H. congruence.
  - apply eqb_prop in H. congruence.
  - apply andb_prop in H as [H He]. apply andb_prop in H as [Hs Hm].
    apply eqb_prop in Hs. apply Pos.eqb_eq in Hm. apply Z.eqb_eq in He.
    congruence.
Qed.

Lemma all_from_spec : forall (f : Z -> bool) (n : nat) (lo : Z),
  all_from f lo n = true ->
  forall z, lo <= z < lo + Z.of_nat n -> f z = true.
Proof.
  induction n as [|n IH]; intros lo H z Hz.
  - simpl in Hz. lia.
  - simpl in H. apply andb_prop in H as [H0 H1].
    destruct (Z.eq_dec z lo) as [->|Hne]; [exact H0|].
    apply (IH (lo + 1) H1). lia.
Qed.

(** Effective durations below 4096, one by one. *)
Lemma delay_completes_small : all_from delay_completes 500 3596 = true.
Proof. vm_compute. reflexivity. Qed.

Lemma Math_min_of_greater : forall x b : number,
  ltb b x = true ->
  is_neg_zero b = false ->
  ltb b (S754_infinity false) = true ->
  Math_min x b = b.
Proof.
  intros x b Hlt Hnz Hinf.
  assert (Hx : isNaN x = false)
    by (destruct x; try reflexivity; destruct b; discriminate Hlt).
  assert (Hb : isNaN b = false)
    by (destruct b; try reflexivity; discriminate Hlt).
  unfold Math_min. rewrite Hx, Hb. simpl.
  unfold Math_min_step. rewrite Hnz. simpl. rewrite andb_false_r.
  destruct (ltb x (S754_infinity false)).
  - rewrite Hlt. reflexivity.
  - rewrite Hinf. reflexivity.
Qed.

Lemma of_Z_large : forall e : Z, 4096 <= e < 2 ^ 53 ->
  exists c : positive, e = Zpos c /\ 13 <= digits c <= 53 /\
                       of_Z e = double_of_pos false c.
Proof.
  intros [|c|c] H; try lia. exists c.
  assert (Hhi : digits c <= 53) by (apply digits_le; lia).
  assert (Hlo : 12 + 1 <= digits c)
    by (apply digits_ge; [lia | change (2 ^ 12) with 4096; lia]).
  repeat split; try lia. apply of_Z_pos, Hhi.
Qed.

(** ** Rounding to nearest *)

Section Rounding.

Lemma iter_pos_is_iter : forall (A : Type) (f : A -> A) (p : positive) (x : A),
  iter_pos f p x = Pos.iter f x p.
Proof.
  intros A f. induction p as [p IH|p IH|]; intros x; simpl.
  - rewrite !IH, <- !Pos.iter_swap. reflexivity.
  - rewrite !IH. reflexivity.
  - reflexivity.
Qed.

Lemma shr_1_spec : forall m r s, 0 <= m ->
  shr_1 (Build_shr_record m r s) = Build_shr_record (m / 2) (Z.odd m) (r || s).
Proof.
  intros m r s H. destruct m as [|[p|p|]|p]; try lia; simpl shr_1.
  - reflexivity.
  - assert (E : Z.pos p~1 / 2 = Z.pos p)
      by (symmetry; apply Z.div_unique with (r := 1); lia).
    rewrite E. reflexivity.
  - assert (E : Z.pos p~0 / 2 = Z.pos p)
      by (symmetry; apply Z.div_unique with (r := 0); lia).
    rewrite E. reflexivity.
  - reflexivity.
Qed.

Lemma sticky_step : forall M n, 0 <= M -> 0 <= n ->
  Z.odd (M / 2 ^ n) || negb (M mod 2 ^ n =? 0) = negb (M mod 2 ^ (n + 1) =? 0).
Proof.
  intros M n HM Hn.
  assert (Hp : 0 < 2 ^ n) by (apply Z.pow_pos_nonneg; lia).
  rewrite Z.pow_add_r, Z.pow_1_r by lia.
  rewrite Z.rem_mul_r by lia.
  pose proof (Z.mod_pos_bound M (2 ^ n) Hp) as Hb.
  pose proof (Z.mod_pos_bound (M / 2 ^ n) 2 ltac:(lia)) as Hb2.
  rewrite (Zmod_odd (M / 2 ^ n)) in *.
  destruct (Z.odd (M / 2 ^ n)); simpl.
  - symmetry. apply negb_true_iff, Z.eqb_neq. nia.
  - f_equal. f_equal. lia.
Qed.

Lemma iter_shr_spec : forall (n : positive) (M : Z), 0 <= M ->
  iter_pos shr_1 n (Build_shr_record M false false)
  = Build_shr_record (M / 2 ^ Zpos n)
                     (Z.odd (M / 2 ^ (Zpos n - 1)))
                     (negb (M mod 2 ^ (Zpos n - 1) =? 0)).
Proof.
  intros n M HM. rewrite iter_pos_is_iter.
  induction n as [|n IH] using Pos.peano_ind.
  - cbn [Pos.iter]. rewrite shr_1_spec by exact HM.
    change (Z.pos 1 - 1) with 0. rewrite Z.pow_0_r, Z.div_1_r, Z.mod_1_r.
    reflexivity.
  - rewrite Pos.iter_succ, IH.
    assert (Hp : 0 < 2 ^ Zpos n) by (apply Z.pow_pos_nonneg; lia).
    rewrite shr_1_spec by (apply Z.div_pos; lia).
    rewrite Pos2Z.inj_succ.
    replace (Z.succ (Z.pos n) - 1) with (Z.pos n) by lia.
    f_equal.
    + rewrite Z.div_div by lia. rewrite Z.pow_succ_r by lia. f_equal. lia.
    + replace (Z.pos n) with (Z.pos n - 1 + 1) at 3 by lia.
      apply sticky_step; lia.
Qed.

End Rounding.
Section RoundToNearest.

Lemma binary_round_aux_stages : forall s mx ex lx,
  binary_round_aux prec emax s mx ex lx
  = round_finish s
      (round_nearest_even (shr_m (fst (shr_fexp prec emax mx ex lx)))
                          (loc_of_shr_record (fst (shr_fexp prec emax mx ex lx))))
      (snd (shr_fexp prec emax mx ex lx)).
Proof.
  intros. unfold binary_round_aux, round_finish.
  destruct (shr_fexp prec emax mx ex lx) as [mrs' e']. reflexivity.
Qed.

Lemma round_finish_canonical : forall s m e,
  digits m = 53 -> -1074 <= e <= 971 ->
  round_finish s (Zpos m) e = S754_finite s m e.
Proof.
  intros s m e Hd He. unfold round_finish.
  rewrite shr_fexp_canonical by (assumption || lia). simpl. leb_case.
Qed.

Lemma round_finish_carry : forall s e,
  -1074 <= e <= 971 ->
  round_finish s 9007199254740992 e
  = if e + 1 <=? 971 then S754_finite s 4503599627370496 (e + 1)
    else S754_infinity s.
Proof.
  intros s e He. unfold round_finish, shr_fexp.
  change (Zdigits2 9007199254740992) with 54.
  replace (fexp prec emax (54 + e) - e) with 1
    by (unfold fexp, SpecFloat.emin, prec, emax; lia).
  reflexivity.
Qed.

Lemma digits_of_sum : forall (M q : positive) (n rho : Z),
  0 <= n -> digits q = 53 -> 0 <= rho < 2 ^ n ->
  Zpos M = Zpos q * 2 ^ n + rho -> digits M = 53 + n.
Proof.
  intros M q n rho Hn Hq Hr HM.
  pose proof (digits_bounds q) as [Hlo Hhi]. rewrite Hq in *.
  assert (HP : 0 < 2 ^ n) by (apply Z.pow_pos_nonneg; lia).
  apply Z.le_antisymm.
  - apply digits_le; [lia|]. rewrite Z.pow_add_r by lia.
    assert ((Zpos q + 1) * 2 ^ n <= 2 ^ 53 * 2 ^ n)
      by (apply Z.mul_le_mono_nonneg_r; lia).
    lia.
  - replace (53 + n) with (52 + n + 1) by lia. apply digits_ge; [lia|].
    rewrite Z.pow_add_r by lia.
    assert (2 ^ (53 - 1) * 2 ^ n <= Zpos q * 2 ^ n)
      by (apply Z.mul_le_mono_nonneg_r; lia).
    change (53 - 1) with 52 in *. lia.
Qed.

End RoundToNearest.

Section RoundSpec.

Lemma shr_fexp_rounds : forall (M q : positive) (n x rho : Z),
  0 <= n -> digits q = 53 -> 0 <= rho < 2 ^ n ->
  Zpos M = Zpos q * 2 ^ n + rho -> -1074 <= x ->
  snd (shr_fexp prec emax (Zpos M) x loc_Exact) = x + n /\
  round_nearest_even
    (shr_m (fst (shr_fexp prec emax (Zpos M) x loc_Exact)))
    (loc_of_shr_record (fst (shr_fexp prec emax (Zpos M) x loc_Exact)))
  = if round_up q n rho then Zpos q + 1 else Zpos q.
Proof.
  intros M q n x rho Hn Hq Hr HM Hx.
  pose proof (digits_of_sum M q n rho Hn Hq Hr HM) as HdM.
  unfold shr_fexp. simpl Zdigits2.
  change (Z.pos (digits2_pos M)) with (digits M). rewrite HdM.
  replace (fexp prec emax (53 + n + x) - x) with n
    by (unfold fexp, SpecFloat.emin, prec, emax; lia).
  simpl shr_record_of_loc. unfold shr, round_up.
  destruct n as [|p|p]; try lia.
  - (* no shift *)
    simpl fst. simpl snd. simpl in Hr. assert (rho = 0) by lia. subst rho.
    split; [lia|]. simpl. f_equal. lia.
  - cbn [fst snd]. split; [reflexivity|].
    rewrite iter_shr_spec by lia.
    set (H := 2 ^ (Z.pos p - 1)).
    assert (HH : 0 < H) by (apply Z.pow_pos_nonneg; lia).
    assert (H2 : 2 ^ Z.pos p = 2 * H).
    { subst H. replace (Z.pos p) with (Z.succ (Z.pos p - 1)) at 1 by lia.
      rewrite Z.pow_succ_r by lia. reflexivity. }
    rewrite H2 in *.
    assert (Eq : Z.pos M / (2 * H) = Z.pos q)
      by (symmetry; apply Z.div_unique with (r := rho); lia).
    rewrite Eq. cbn [shr_m loc_of_shr_record].
    destruct (Z.lt_ge_cases rho H) as [Hlt|Hge].
    + (* below the half *)
      assert (E1 : Z.pos M / H = 2 * Z.pos q)
        by (symmetry; apply Z.div_unique with (r := rho); lia).
      rewrite E1.
      replace (Z.odd (2 * Z.pos q)) with false
        by (symmetry; rewrite <- (Z.add_0_l (2 * Z.pos q)), Z.odd_add_mul_2; reflexivity).
      replace (2 * H <? 2 * rho) with false by (symmetry; apply Z.ltb_ge; lia).
      replace (2 * rho =? 2 * H) with false by (symmetry; apply Z.eqb_neq; lia).
      simpl. destruct (negb (Z.pos M mod H =? 0)); reflexivity.
    + assert (E1 : Z.pos M / H = 2 * Z.pos q + 1)
        by (symmetry; apply Z.div_unique with (r := rho - H); lia).
      rewrite E1.
      replace (Z.odd (2 * Z.pos q + 1)) with true
        by (symmetry; rewrite Z.add_comm, Z.odd_add_mul_2; reflexivity).
      assert (E2 : Z.pos M mod H = rho - H)
        by (symmetry; apply Z.mod_unique with (q := 2 * Z.pos q + 1); lia).
      rewrite E2.
      destruct (Z.eq_dec rho H) as [->|Hne].
      * replace (H - H =? 0) with true by (symmetry; apply Z.eqb_eq; lia).
        rewrite Z.ltb_irrefl, Z.eqb_refl. simpl negb. cbn [round_nearest_even orb andb].
        rewrite <- Z.negb_odd. destruct (Z.odd (Z.pos q)); reflexivity.
      * replace (rho - H =? 0) with false by (symmetry; apply Z.eqb_neq; lia).
        replace (2 * H <? 2 * rho) with true by (symmetry; apply Z.ltb_lt; lia).
        reflexivity.
Qed.

(** [binary_round] on a mantissa of 53 bits or more rounds to nearest,
    ties to even. *)
Lemma round_spec : forall (M q : positive) (n x rho : Z),
  0 <= n -> digits q = 53 -> 0 <= rho < 2 ^ n ->
  Zpos M = Zpos q * 2 ^ n + rho -> -1074 <= x -> x + n <= 971 ->
  binary_round prec emax false M x = rounded q n rho (x + n).
Proof.
  intros M q n x rho Hn Hq Hr HM Hx He.
  pose proof (digits_of_sum M q n rho Hn Hq Hr HM) as HdM.
  unfold binary_round.
  change (Z.pos (digits2_pos M)) with (digits M). rewrite HdM.
  replace (fexp prec emax (53 + n + x)) with (x + n)
    by (unfold fexp, SpecFloat.emin, prec, emax; lia).
  assert (Hal : shl_align M x (x + n) = (M, x)).
  { unfold shl_align. destruct (x + n - x) eqn:E; try reflexivity. lia. }
  rewrite Hal, binary_round_aux_stages.
  destruct (shr_fexp_rounds M q n x rho Hn Hq Hr HM Hx) as [H1 H2].
  rewrite H1, H2. unfold rounded.
  destruct (round_up q n rho).
  - destruct (Pos.eqb_spec q 9007199254740991) as [->|Hne].
    + apply round_finish_carry. lia.
    + replace (Z.pos q + 1) with (Z.pos (Pos.succ q)) by lia.
      apply round_finish_canonical; [|lia].
      pose proof (digits_bounds q) as [Hlo Hhi]. rewrite Hq in *.
      apply Z.le_antisymm.
      * apply digits_le; [lia|].
        assert (Z.pos q <> 9007199254740991) by congruence.
        change (2 ^ 53) with 9007199254740992 in *. lia.
      * change 53 with (52 + 1). apply digits_ge; [lia|].
        change (53 - 1) with 52 in Hlo. lia.
  - apply round_finish_canonical; [exact Hq|lia].
Qed.

End RoundSpec.

Section Thousand.

Lemma aligned_to_thousand : forall (c : positive) (k : Z), -43 <= k ->
  Z.min k (-43) = -43 /\
  fst (shl_align c k (-43)) = shl c (k + 43) /\
  fst (shl_align 8796093022208000 (-43) (-43)) = 8796093022208000%positive.
Proof.
  intros c k Hk. split; [lia|]. split.
  - rewrite shl_align_le by lia. cbn [fst]. f_equal; lia.
  - reflexivity.
Qed.

(** Subtracting and adding 1000 to a double of exponent [k]: the exact
    result, scaled to the exponent of 1000, rounded to nearest. *)
Lemma sub_thousand : forall (c q : positive) (k n rho : Z),
  -43 <= k -> digits q = 53 -> 0 <= n -> 0 <= rho < 2 ^ n ->
  Zpos c * 2 ^ (k + 43) - 1000 * 2 ^ 43 = Zpos q * 2 ^ n + rho ->
  n - 43 <= 971 ->
  sub (S754_finite false c k) (of_Z 1000) = rounded q n rho (n - 43).
Proof.
  intros c q k n rho Hk Hq Hn Hr HM He.
  change (of_Z 1000) with (S754_finite false 8796093022208000 (-43)).
  unfold sub, SFsub.
  destruct (aligned_to_thousand c k Hk) as (E0 & E1 & E2).
  rewrite E0, E1, E2. cbn [cond_Zopp].
  rewrite Zpos_shl by lia.
  change (Z.pos 8796093022208000) with (1000 * 2 ^ 43). rewrite HM.
  assert (HP : 0 < 2 ^ n) by (apply Z.pow_pos_nonneg; lia).
  destruct (Z.pos q * 2 ^ n + rho) as [|M|M] eqn:E; try nia.
  cbn [binary_normalize].
  replace (n - 43) with (-43 + n) by lia.
  apply round_spec; try assumption; lia.
Qed.

Lemma add_thousand : forall (c q : positive) (k n rho : Z),
  -43 <= k -> digits q = 53 -> 0 <= n -> 0 <= rho < 2 ^ n ->
  Zpos c * 2 ^ (k + 43) + 1000 * 2 ^ 43 = Zpos q * 2 ^ n + rho ->
  n - 43 <= 971 ->
  add (S754_finite false c k) (of_Z 1000) = rounded q n rho (n - 43).
Proof.
  intros c q k n rho Hk Hq Hn Hr HM He.
  change (of_Z 1000) with (S754_finite false 8796093022208000 (-43)).
  unfold add, SFadd.
  destruct (aligned_to_thousand c k Hk) as (E0 & E1 & E2).
  rewrite E0, E1, E2. cbn [cond_Zopp].
  rewrite Zpos_shl by lia.
  change (Z.pos 8796093022208000) with (1000 * 2 ^ 43). rewrite HM.
  assert (HP : 0 < 2 ^ n) by (apply Z.pow_pos_nonneg; lia).
  destruct (Z.pos q * 2 ^ n + rho) as [|M|M] eqn:E; try nia.
  cbn [binary_normalize].
  replace (n - 43) with (-43 + n) by lia.
  apply round_spec; try assumption; lia.
Qed.

(** A third of a double that is at least 4096 exceeds 1000. *)
Lemma third_of_double_exceeds_maximum : forall (mx : positive) (ex : Z),
  digits mx <= 53 -> 13 <= digits mx + ex ->
  ltb (of_Z 1000) (div (S754_finite false mx ex) (of_Z 3)) = true.
Proof.
  intros mx ex Hd Hv. pose proof (digits_pos mx) as Hd1.
  change (of_Z 3) with (S754_finite false 6755399441055744 (-51)).
  change (of_Z 1000) with (S754_finite false 8796093022208000 (-43)).
  unfold div, SFdiv, SFdiv_core_binary.
  change (Zdigits2 (Z.pos mx)) with (digits mx).
  change (Zdigits2 6755399441055744) with 53.
  set (e' := Z.min _ _).
  assert (He' : e' = digits mx + ex - 55)
    by (subst e'; unfold fexp, SpecFloat.emin, prec, emax; lia).
  rewrite He'.
  replace (ex - -51 - (digits mx + ex - 55)) with (106 - digits mx) by lia.
  destruct (106 - digits mx) as [|s|s] eqn:Es; try lia.
  destruct (Z.div_eucl (Z.shiftl (Z.pos mx) (Z.pos s)) 6755399441055744)
    as [q r] eqn:E.
  assert (Hq : 1 <= q).
  { pose proof (Z_div_mod (Z.shiftl (Z.pos mx) (Z.pos s)) 6755399441055744 ltac:(lia)) as H.
    rewrite E in H. destruct H as [H1 H2].
    rewrite Z.shiftl_mul_pow2 in H1 by lia.
    pose proof (digits_bounds mx) as [Hlo _].
    assert (H3 : 2 ^ (digits mx - 1) * 2 ^ Z.pos s <= Z.pos mx * 2 ^ Z.pos s).
    { apply Z.mul_le_mono_nonneg_r; [|exact Hlo]. apply Z.pow_nonneg. lia. }
    rewrite <- Z.pow_add_r in H3 by lia.
    replace (digits mx - 1 + Z.pos s) with 105 in H3 by lia.
    change (2 ^ 105) with 40564819207303340847894502572032 in H3. lia. }
  destruct q as [|q|q]; try lia.
  pose proof (binary_round_aux_pos q (digits mx + ex - 55)
                (new_location 6755399441055744 r) ltac:(lia)) as H.
  cbn [xorb].
  destruct (binary_round_aux prec emax false (Z.pos q) (digits mx + ex - 55) _)
    as [s0|[]| |[] m e]; try contradiction; try reflexivity.
  unfold ltb, SFltb, SFcompare.
  destruct (Z.compare_spec (-43) e); try reflexivity; lia.
Qed.

End Thousand.

Section ThousandAndBack.

Lemma digits_53 : forall q : positive,
  2 ^ 52 <= Zpos q < 2 ^ 53 -> digits q = 53.
Proof.
  intros q [Hlo Hhi]. apply Z.le_antisymm.
  - apply digits_le; lia.
  - change 53 with (52 + 1). apply digits_ge; lia.
Qed.

Lemma digits_53_bounds : forall q : positive,
  digits q = 53 -> 2 ^ 52 <= Zpos q < 2 ^ 53.
Proof.
  intros q H. pose proof (digits_bounds q) as B. rewrite H in B.
  exact B.
Qed.

Lemma rounded_down : forall q n rho e,
  0 <= rho -> 2 * rho < 2 ^ n -> rounded q n rho e = S754_finite false q e.
Proof.
  intros q n rho e H0 H. unfold rounded, round_up.
  replace (2 ^ n <? 2 * rho) with false by (symmetry; apply Z.ltb_ge; lia).
  replace (2 * rho =? 2 ^ n) with false by (symmetry; apply Z.eqb_neq; lia).
  reflexivity.
Qed.

Lemma rounded_up : forall q n rho e,
  2 ^ n < 2 * rho -> Zpos q < 2 ^ 53 - 1 ->
  rounded q n rho e = S754_finite false (Pos.succ q) e.
Proof.
  intros q n rho e H Hq. unfold rounded, round_up.
  replace (2 ^ n <? 2 * rho) with true by (symmetry; apply Z.ltb_lt; lia).
  simpl orb.
  destruct (Pos.eqb_spec q 9007199254740991) as [->|Hne]; [|reflexivity].
  change (2 ^ 53) with 9007199254740992 in Hq. lia.
Qed.

Lemma rounded_exact : forall q n e,
  0 <= n -> rounded q n 0 e = S754_finite false q e.
Proof.
  intros q n e Hn. apply rounded_down; [lia|].
  assert (0 < 2 ^ n) by (apply Z.pow_pos_nonneg; lia). lia.
Qed.

Lemma pow_split : forall k, 0 <= k -> 2 ^ (k + 43) = 2 ^ k * 8796093022208.
Proof. intros k Hk. rewrite Z.pow_add_r by lia. reflexivity. Qed.

(** The difference is cut off below and the sum rounded back up. *)
Lemma thousand_down_up : forall (c : positive) (k r : Z),
  0 <= k <= 971 -> 1 <= r -> digits c = 53 ->
  1000 < r * 2 ^ k -> 2 * (r * 2 ^ k - 1000) < 2 ^ k ->
  2 ^ 52 + r <= Zpos c ->
  add (sub (S754_finite false c k) (of_Z 1000)) (of_Z 1000)
  = S754_finite false c k.
Proof.
  intros c k r Hk Hr Hc H1 H2 H3.
  pose proof (digits_53_bounds c Hc) as Bc.
  assert (HP : 0 < 2 ^ k) by (apply Z.pow_pos_nonneg; lia).
  pose proof (pow_split k ltac:(lia)) as HS.
  set (P := 2 ^ k) in *.
  set (q1 := Z.to_pos (Zpos c - r)).
  set (q2 := Z.to_pos (Zpos c - 1)).
  assert (Hq1 : Zpos q1 = Zpos c - r) by (apply Z2Pos.id; lia).
  assert (Hq2 : Zpos q2 = Zpos c - 1) by (apply Z2Pos.id; lia).
  assert (D1 : digits q1 = 53) by (apply digits_53; lia).
  assert (D2 : digits q2 = 53) by (apply digits_53; lia).
  set (rho1 := (r * P - 1000) * 8796093022208).
  set (rho2 := (P - (r * P - 1000)) * 8796093022208).
  assert (R1 : 0 <= rho1 < 2 ^ (k + 43)) by (rewrite HS; subst rho1; lia).
  assert (R2 : 0 <= rho2 < 2 ^ (k + 43)) by (rewrite HS; subst rho2; lia).
  assert (E1 : Zpos c * 2 ^ (k + 43) - 1000 * 2 ^ 43 = Zpos q1 * 2 ^ (k + 43) + rho1).
  { rewrite HS, Hq1. subst rho1. change (2 ^ 43) with 8796093022208. ring. }
  assert (E2 : Zpos q1 * 2 ^ (k + 43) + 1000 * 2 ^ 43 = Zpos q2 * 2 ^ (k + 43) + rho2).
  { rewrite HS, Hq1, Hq2. subst rho2. change (2 ^ 43) with 8796093022208. ring. }
  rewrite (sub_thousand c q1 k (k + 43) rho1 ltac:(lia) D1 ltac:(lia) R1 E1 ltac:(lia)).
  rewrite rounded_down by (rewrite ?HS; subst rho1; lia).
  replace (k + 43 - 43) with k by lia.
  rewrite (add_thousand q1 q2 k (k + 43) rho2 ltac:(lia) D2 ltac:(lia) R2 E2 ltac:(lia)).
  rewrite rounded_up by (rewrite ?HS; subst rho2; lia).
  replace (k + 43 - 43) with k by lia. f_equal. lia.
Qed.

(** The difference is rounded up and the sum cut off below. *)
Lemma thousand_up_down : forall (c : positive) (k r : Z),
  0 <= k <= 971 -> 0 <= r -> digits c = 53 ->
  r * 2 ^ k < 1000 -> 2 * (1000 - r * 2 ^ k) < 2 ^ k ->
  2 ^ 52 + r + 1 <= Zpos c ->
  add (sub (S754_finite false c k) (of_Z 1000)) (of_Z 1000)
  = S754_finite false c k.
Proof.
  intros c k r Hk Hr Hc H1 H2 H3.
  pose proof (digits_53_bounds c Hc) as Bc.
  assert (HP : 0 < 2 ^ k) by (apply Z.pow_pos_nonneg; lia).
  pose proof (pow_split k ltac:(lia)) as HS.
  set (P := 2 ^ k) in *.
  set (q1 := Z.to_pos (Zpos c - r - 1)).
  assert (Hq1 : Zpos q1 = Zpos c - r - 1) by (apply Z2Pos.id; lia).
  assert (D1 : digits q1 = 53) by (apply digits_53; lia).
  assert (D1' : digits (Pos.succ q1) = 53) by (apply digits_53; lia).
  set (rho1 := (P - (1000 - r * P)) * 8796093022208).
  set (rho2 := (1000 - r * P) * 8796093022208).
  assert (R1 : 0 <= rho1 < 2 ^ (k + 43)) by (rewrite HS; subst rho1; lia).
  assert (R2 : 0 <= rho2 < 2 ^ (k + 43)) by (rewrite HS; subst rho2; lia).
  assert (E1 : Zpos c * 2 ^ (k + 43) - 1000 * 2 ^ 43 = Zpos q1 * 2 ^ (k + 43) + rho1).
  { rewrite HS, Hq1. subst rho1. change (2 ^ 43) with 8796093022208. ring. }
  assert (E2 : Zpos (Pos.succ q1) * 2 ^ (k + 43) + 1000 * 2 ^ 43
               = Zpos c * 2 ^ (k + 43) + rho2).
  { rewrite HS, Pos2Z.inj_succ, Hq1. subst rho2.
    change (2 ^ 43) with 8796093022208. ring. }
  rewrite (sub_thousand c q1 k (k + 43) rho1 ltac:(lia) D1 ltac:(lia) R1 E1 ltac:(lia)).
  rewrite rounded_up by (rewrite ?HS; subst rho1; lia).
  replace (k + 43 - 43) with k by lia.
  rewrite (add_thousand (Pos.succ q1) c k (k + 43) rho2 ltac:(lia) Hc ltac:(lia) R2 E2 ltac:(lia)).
  rewrite rounded_down by (rewrite ?HS; subst rho2; lia).
  replace (k + 43 - 43) with k by lia. reflexivity.
Qed.

End ThousandAndBack.
Section ThousandCases.

Lemma thousand_exact : forall (c : positive) (k r : Z),
  0 <= k <= 971 -> digits c = 53 ->
  r * 2 ^ k = 1000 -> 2 ^ 52 + r <= Zpos c ->
  add (sub (S754_finite false c k) (of_Z 1000)) (of_Z 1000)
  = S754_finite false c k.
Proof.
  intros c k r Hk Hc H1 H3.
  pose proof (digits_53_bounds c Hc) as Bc.
  assert (HP : 0 < 2 ^ k) by (apply Z.pow_pos_nonneg; lia).
  pose proof (pow_split k ltac:(lia)) as HS.
  assert (Hr : 0 < r) by nia.
  set (P := 2 ^ k) in *.
  set (q1 := Z.to_pos (Zpos c - r)).
  assert (Hq1 : Zpos q1 = Zpos c - r) by (apply Z2Pos.id; lia).
  assert (D1 : digits q1 = 53) by (apply digits_53; lia).
  assert (R : 0 <= 0 < 2 ^ (k + 43)) by (rewrite HS; lia).
  assert (E1 : Zpos c * 2 ^ (k + 43) - 1000 * 2 ^ 43 = Zpos q1 * 2 ^ (k + 43) + 0).
  { rewrite HS, Hq1, <- H1. change (2 ^ 43) with 8796093022208. ring. }
  assert (E2 : Zpos q1 * 2 ^ (k + 43) + 1000 * 2 ^ 43 = Zpos c * 2 ^ (k + 43) + 0).
  { rewrite HS, Hq1, <- H1. change (2 ^ 43) with 8796093022208. ring. }
  rewrite (sub_thousand c q1 k (k + 43) 0 ltac:(lia) D1 ltac:(lia) R E1 ltac:(lia)).
  rewrite rounded_exact by lia.
  replace (k + 43 - 43) with k by lia.
  rewrite (add_thousand q1 c k (k + 43) 0 ltac:(lia) Hc ltac:(lia) R E2 ltac:(lia)).
  rewrite rounded_exact by lia.
  replace (k + 43 - 43) with k by lia. reflexivity.
Qed.

(** The difference falls into the binade below and is exact there. *)
Lemma thousand_exact_below : forall (c : positive) (k r : Z),
  1 <= k <= 971 -> digits c = 53 ->
  r * 2 ^ (k - 1) = 1000 -> 2 * Zpos c - r < 2 ^ 53 ->
  add (sub (S754_finite false c k) (of_Z 1000)) (of_Z 1000)
  = S754_finite false c k.
Proof.
  intros c k r Hk Hc H1 H3.
  pose proof (digits_53_bounds c Hc) as Bc.
  assert (HP : 0 < 2 ^ (k - 1)) by (apply Z.pow_pos_nonneg; lia).
  pose proof (pow_split (k - 1) ltac:(lia)) as HS.
  assert (HS' : 2 ^ (k + 43) = 2 * (2 ^ (k - 1) * 8796093022208)).
  { rewrite <- HS. replace (k + 43) with (Z.succ (k - 1 + 43)) by lia.
    rewrite Z.pow_succ_r by lia. reflexivity. }
  assert (Hr : 0 < r <= 1000) by nia.
  set (P := 2 ^ (k - 1)) in *.
  set (q1 := Z.to_pos (2 * Zpos c - r)).
  assert (Hq1 : Zpos q1 = 2 * Zpos c - r) by (apply Z2Pos.id; lia).
  assert (D1 : digits q1 = 53).
  { apply digits_53. change (2 ^ 53) with 9007199254740992 in *.
    change (2 ^ 52) with 4503599627370496 in *. lia. }
  assert (R1 : 0 <= 0 < 2 ^ (k - 1 + 43)) by (rewrite HS; lia).
  assert (R2 : 0 <= 0 < 2 ^ (k + 43)) by (rewrite HS'; lia).
  assert (E1 : Zpos c * 2 ^ (k + 43) - 1000 * 2 ^ 43
               = Zpos q1 * 2 ^ (k - 1 + 43) + 0).
  { rewrite HS, HS', Hq1, <- H1. change (2 ^ 43) with 8796093022208. ring. }
  assert (E2 : Zpos q1 * 2 ^ (k - 1 + 43) + 1000 * 2 ^ 43
               = Zpos c * 2 ^ (k + 43) + 0).
  { rewrite HS, HS', Hq1, <- H1. change (2 ^ 43) with 8796093022208. ring. }
  rewrite (sub_thousand c q1 k (k - 1 + 43) 0 ltac:(lia) D1 ltac:(lia) R1 E1 ltac:(lia)).
  rewrite rounded_exact by lia.
  replace (k - 1 + 43 - 43) with (k - 1) by lia.
  rewrite (add_thousand q1 c (k - 1) (k + 43) 0 ltac:(lia) Hc ltac:(lia) R2 E2 ltac:(lia)).
  rewrite rounded_exact by lia.
  replace (k + 43 - 43) with k by lia. reflexivity.
Qed.

(** Between 2^56 + 1008 and 2^57 both the difference and the sum are
    ties: with an even mantissa the sum is the double again, with an odd
    one it is the double below. *)
Lemma thousand_tie : forall c : positive,
  digits c = 53 -> 2 ^ 52 + 63 <= Zpos c ->
  add (sub (S754_finite false c 4) (of_Z 1000)) (of_Z 1000)
  = if Z.odd (Zpos c) then S754_finite false (Pos.pred c) 4
    else S754_finite false c 4.
Proof.
  intros c Hc H3.
  pose proof (digits_53_bounds c Hc) as Bc.
  change (2 ^ 53) with 9007199254740992 in *.
  change (2 ^ 52) with 4503599627370496 in *.
  set (q1 := Z.to_pos (Zpos c - 63)).
  assert (Hq1 : Zpos q1 = Zpos c - 63) by (apply Z2Pos.id; lia).
  assert (D1 : digits q1 = 53) by (apply digits_53; lia).
  assert (R : 0 <= 2 ^ 46 < 2 ^ (4 + 43)) by (split; [lia | reflexivity]).
  assert (E1 : Zpos c * 2 ^ (4 + 43) - 1000 * 2 ^ 43 = Zpos q1 * 2 ^ (4 + 43) + 2 ^ 46).
  { rewrite Hq1. change (2 ^ (4 + 43)) with 140737488355328.
    change (2 ^ 43) with 8796093022208. change (2 ^ 46) with 70368744177664. lia. }
  rewrite (sub_thousand c q1 4 (4 + 43) (2 ^ 46) ltac:(lia) D1 ltac:(lia) R E1 ltac:(lia)).
  unfold rounded at 1, round_up.
  change (2 ^ (4 + 43) <? 2 * 2 ^ 46) with false.
  change (2 * 2 ^ 46 =? 2 ^ (4 + 43)) with true.
  cbn [orb andb]. change (4 + 43 - 43) with 4.
  assert (Hodd : Z.odd (Zpos q1) = negb (Z.odd (Zpos c))).
  { rewrite Hq1. replace (Zpos c - 63) with (Zpos c + 1 + 2 * (-32)) by lia.
    rewrite Z.odd_add_mul_2, Z.odd_add.
    destruct (Z.odd (Zpos c)); reflexivity. }
  rewrite Hodd.
  destruct (Z.odd (Zpos c)) eqn:Oc; cbn [negb].
  - (* odd mantissa: the difference stays at c - 63 *)
    set (q2 := Pos.pred c).
    assert (Hq2 : Zpos q2 = Zpos c - 1) by (subst q2; lia).
    assert (D2 : digits q2 = 53) by (apply digits_53; lia).
    assert (E2 : Zpos q1 * 2 ^ (4 + 43) + 1000 * 2 ^ 43
                 = Zpos q2 * 2 ^ (4 + 43) + 2 ^ 46).
    { rewrite Hq1, Hq2. change (2 ^ (4 + 43)) with 140737488355328.
      change (2 ^ 43) with 8796093022208. change (2 ^ 46) with 70368744177664. lia. }
    rewrite (add_thousand q1 q2 4 (4 + 43) (2 ^ 46) ltac:(lia) D2 ltac:(lia) R E2 ltac:(lia)).
    unfold rounded, round_up.
    change (2 ^ (4 + 43) <? 2 * 2 ^ 46) with false.
    change (2 * 2 ^ 46 =? 2 ^ (4 + 43)) with true.
    cbn [orb andb].
    assert (Hodd2 : Z.odd (Zpos q2) = false).
    { rewrite Hq2. replace (Zpos c - 1) with (Zpos c + 1 + 2 * (-1)) by lia.
      rewrite Z.odd_add_mul_2, Z.odd_add, Oc. reflexivity. }
    rewrite Hodd2. reflexivity.
  - (* even mantissa: the difference is rounded up to c - 62 *)
    destruct (Pos.eqb_spec q1 9007199254740991) as [E|_]; [lia|].
    assert (Hs : Zpos (Pos.succ q1) = Zpos c - 62) by lia.
    assert (E2 : Zpos (Pos.succ q1) * 2 ^ (4 + 43) + 1000 * 2 ^ 43
                 = Zpos c * 2 ^ (4 + 43) + 2 ^ 46).
    { rewrite Hs. change (2 ^ (4 + 43)) with 140737488355328.
      change (2 ^ 43) with 8796093022208. change (2 ^ 46) with 70368744177664. lia. }
    rewrite (add_thousand (Pos.succ q1) c 4 (4 + 43) (2 ^ 46)
               ltac:(lia) Hc ltac:(lia) R E2 ltac:(lia)).
    unfold rounded, round_up.
    change (2 ^ (4 + 43) <? 2 * 2 ^ 46) with false.
    change (2 * 2 ^ 46 =? 2 ^ (4 + 43)) with true.
    cbn [orb andb]. rewrite Oc. reflexivity.
Qed.

(** A power of two from 2^64 on: the difference is rounded up to the
    power itself. *)
Lemma thousand_power_of_two : forall k : Z,
  12 <= k <= 971 ->
  add (sub (S754_finite false 4503599627370496 k) (of_Z 1000)) (of_Z 1000)
  = S754_finite false 4503599627370496 k.
Proof.
  intros k Hk.
  assert (HP : 2 ^ 11 <= 2 ^ (k - 1)) by (apply Z.pow_le_mono_r; lia).
  change (2 ^ 11) with 2048 in HP.
  pose proof (pow_split (k - 1) ltac:(lia)) as HS.
  assert (HS' : 2 ^ (k + 43) = 2 * (2 ^ (k - 1) * 8796093022208)).
  { rewrite <- HS. replace (k + 43) with (Z.succ (k - 1 + 43)) by lia.
    rewrite Z.pow_succ_r by lia. reflexivity. }
  set (P := 2 ^ (k - 1)) in *.
  set (rho1 := (P - 1000) * 8796093022208).
  assert (R1 : 0 <= rho1 < 2 ^ (k - 1 + 43)) by (rewrite HS; subst rho1; lia).
  assert (E1 : Zpos 4503599627370496 * 2 ^ (k + 43) - 1000 * 2 ^ 43
               = Zpos 9007199254740991 * 2 ^ (k - 1 + 43) + rho1).
  { rewrite HS, HS'. subst rho1. change (2 ^ 43) with 8796093022208. ring. }
  rewrite (sub_thousand 4503599627370496 9007199254740991 k (k - 1 + 43) rho1
             ltac:(lia) eq_refl ltac:(lia) R1 E1 ltac:(lia)).
  unfold rounded at 1, round_up.
  replace (2 ^ (k - 1 + 43) <? 2 * rho1) with true
    by (symmetry; apply Z.ltb_lt; rewrite HS; subst rho1; lia).
  cbn [orb]. change (9007199254740991 =? 9007199254740991)%positive with true.
  cbv iota.
  replace (k - 1 + 43 - 43 + 1) with k by lia.
  replace (k <=? 971) with true by (symmetry; apply Z.leb_le; lia).
  set (rho2 := 1000 * 8796093022208).
  assert (R2 : 0 <= rho2 < 2 ^ (k + 43)) by (rewrite HS'; subst rho2; lia).
  assert (E2 : Zpos 4503599627370496 * 2 ^ (k + 43) + 1000 * 2 ^ 43
               = Zpos 4503599627370496 * 2 ^ (k + 43) + rho2) by reflexivity.
  rewrite (add_thousand 4503599627370496 4503599627370496 k (k + 43) rho2
             ltac:(lia) eq_refl ltac:(lia) R2 E2 ltac:(lia)).
  rewrite rounded_down by (rewrite ?HS'; subst rho2; lia).
  replace (k + 43 - 43) with k by lia. reflexivity.
Qed.

End ThousandCases.

Section ThousandAssembly.

Lemma back_5 : all_from (there_and_back 5) (2 ^ 52) 32 = true.
Proof. vm_compute. reflexivity. Qed.
Lemma back_6 : all_from (there_and_back 6) (2 ^ 52) 16 = true.
Proof. vm_compute. reflexivity. Qed.
Lemma back_7 : all_from (there_and_back 7) (2 ^ 52) 8 = true.
Proof. vm_compute. reflexivity. Qed.
Lemma back_8 : all_from (there_and_back 8) (2 ^ 52) 4 = true.
Proof. vm_compute. reflexivity. Qed.
Lemma back_9 : all_from (there_and_back 9) (2 ^ 52) 2 = true.
Proof. vm_compute. reflexivity. Qed.
Lemma back_10 : all_from (there_and_back 10) (2 ^ 52) 1 = true.
Proof. vm_compute. reflexivity. Qed.
Lemma back_11 : all_from (there_and_back 11) (2 ^ 52) 1 = true.
Proof. vm_compute. reflexivity. Qed.

Lemma there_and_back_eq : forall (k : Z) (c : positive),
  there_and_back k (Zpos c) = true ->
  add (sub (S754_finite false c k) (of_Z 1000)) (of_Z 1000)
  = S754_finite false c k.
Proof. intros k c H. apply same_number_eq. exact H. Qed.

(** Whether 1000 less and 1000 more lands on the double below: only for
    an odd mantissa between 2^56 + 1008 and 2^57. *)
Lemma thousand_and_back : forall (c : positive) (k : Z),
  digits c = 53 -> 1 <= k <= 971 ->
  add (sub (S754_finite false c k) (of_Z 1000)) (of_Z 1000)
  = if (k =? 4) && (2 ^ 52 + 63 <=? Zpos c) && Z.odd (Zpos c)
    then S754_finite false (Pos.pred c) 4
    else S754_finite false c k.
Proof.
  intros c k Hc Hk.
  pose proof (digits_53_bounds c Hc) as Bc.
  change (2 ^ 53) with 9007199254740992 in *.
  change (2 ^ 52) with 4503599627370496 in *.
  assert (Hcases : k = 1 \/ k = 2 \/ k = 3 \/ k = 4 \/ k = 5 \/ k = 6 \/ k = 7 \/
                   k = 8 \/ k = 9 \/ k = 10 \/ k = 11 \/ 12 <= k) by lia.
  destruct Hcases as [->|[->|[->|[->|[->|[->|[->|[->|[->|[->|[->|Hbig]]]]]]]]]]];
    try (cbn [Z.eqb andb]).
  - destruct (Z.le_gt_cases (4503599627370496 + 500) (Zpos c)).
    + apply (thousand_exact c 1 500); try assumption; try lia; reflexivity.
    + apply (thousand_exact_below c 1 1000); try assumption; try lia; reflexivity.
  - destruct (Z.le_gt_cases (4503599627370496 + 250) (Zpos c)).
    + apply (thousand_exact c 2 250); try assumption; try lia; reflexivity.
    + apply (thousand_exact_below c 2 500); try assumption; try lia; reflexivity.
  - destruct (Z.le_gt_cases (4503599627370496 + 125) (Zpos c)).
    + apply (thousand_exact c 3 125); try assumption; try lia; reflexivity.
    + apply (thousand_exact_below c 3 250); try assumption; try lia; reflexivity.
  - destruct (Z.leb_spec (4503599627370496 + 63) (Zpos c)) as [Hge|Hlt]; cbn [andb].
    + apply thousand_tie; assumption.
    + apply (thousand_exact_below c 4 125); try assumption; try lia; reflexivity.
  - destruct (Z.le_gt_cases (4503599627370496 + 32) (Zpos c)).
    + apply (thousand_up_down c 5 31); try assumption; try lia; reflexivity.
    + apply there_and_back_eq, (all_from_spec _ _ _ back_5). simpl. lia.
  - destruct (Z.le_gt_cases (4503599627370496 + 16) (Zpos c)).
    + apply (thousand_down_up c 6 16); try assumption; try lia; reflexivity.
    + apply there_and_back_eq, (all_from_spec _ _ _ back_6). simpl. lia.
  - destruct (Z.le_gt_cases (4503599627370496 + 8) (Zpos c)).
    + apply (thousand_down_up c 7 8); try assumption; try lia; reflexivity.
    + apply there_and_back_eq, (all_from_spec _ _ _ back_7). simpl. lia.
  - destruct (Z.le_gt_cases (4503599627370496 + 4) (Zpos c)).
    + apply (thousand_down_up c 8 4); try assumption; try lia; reflexivity.
    + apply there_and_back_eq, (all_from_spec _ _ _ back_8). simpl. lia.
  - destruct (Z.le_gt_cases (4503599627370496 + 2) (Zpos c)).
    + apply (thousand_down_up c 9 2); try assumption; try lia; reflexivity.
    + apply there_and_back_eq, (all_from_spec _ _ _ back_9). simpl. lia.
  - destruct (Z.le_gt_cases (4503599627370496 + 1) (Zpos c)).
    + apply (thousand_down_up c 10 1); try assumption; try lia; reflexivity.
    + apply there_and_back_eq, (all_from_spec _ _ _ back_10). simpl. lia.
  - destruct (Z.le_gt_cases (4503599627370496 + 1) (Zpos c)).
    + apply (thousand_up_down c 11 0); try assumption; try lia; reflexivity.
    + apply there_and_back_eq, (all_from_spec _ _ _ back_11). simpl. lia.
  - replace (k =? 4) with false by (symmetry; apply Z.eqb_neq; lia). cbn [andb].
    assert (HP : 2 ^ 12 <= 2 ^ k) by (apply Z.pow_le_mono_r; lia).
    change (2 ^ 12) with 4096 in HP.
    destruct (Z.le_gt_cases (4503599627370496 + 1) (Zpos c)).
    + apply (thousand_up_down c k 0); try assumption; try lia.
    + assert (c = 4503599627370496%positive) by lia. subst c.
      apply thousand_power_of_two. lia.
Qed.

End ThousandAssembly.
Section DoubleIntegers.

Lemma odd_part_spec : forall p : positive,
  Zpos p = Zpos (odd_part p) * 2 ^ trailing_zeros p /\
  0 <= trailing_zeros p /\
  digits p = digits (odd_part p) + trailing_zeros p.
Proof.
  induction p as [p IH|p IH|]; cbn [odd_part trailing_zeros].
  - rewrite Z.pow_0_r. lia.
  - destruct IH as (H1 & H2 & H3). rewrite digits_xO.
    replace (1 + trailing_zeros p) with (Z.succ (trailing_zeros p)) by lia.
    rewrite Z.pow_succ_r by lia. rewrite Pos2Z.inj_xO. split; [|lia].
    rewrite H1 at 1. ring.
  - rewrite Z.pow_0_r. lia.
Qed.

Lemma double_integer_large : forall p : positive,
  54 <= digits p -> is_double_integer (Zpos p) = true ->
  exists (c : positive) (k : Z),
    digits c = 53 /\ 1 <= k <= 971 /\ Zpos p = Zpos c * 2 ^ k.
Proof.
  intros p Hd H. cbn [is_double_integer] in H.
  apply andb_prop in H as [H1 H2].
  apply Z.leb_le in H1. apply Z.leb_le in H2.
  destruct (odd_part_spec p) as (E & Ht & Ed).
  pose proof (digits_pos (odd_part p)) as Ho.
  exists (shl (odd_part p) (53 - digits (odd_part p))), (digits p - 53).
  split; [rewrite digits_shl; lia|]. split; [lia|].
  rewrite Zpos_shl by lia. rewrite E at 1.
  rewrite <- Z.mul_assoc, <- Z.pow_add_r by lia. f_equal. f_equal. lia.
Qed.

Lemma of_Z_double : forall (c : positive) (k : Z),
  digits c = 53 -> 0 <= k <= 971 ->
  of_Z (Zpos c * 2 ^ k) = S754_finite false c k.
Proof.
  intros c k Hc Hk.
  assert (HP : 0 < 2 ^ k) by (apply Z.pow_pos_nonneg; lia).
  unfold of_Z.
  destruct (Zpos c * 2 ^ k) as [|M|M] eqn:E; try lia.
  cbn [binary_normalize].
  rewrite (round_spec M c k 0 0); try lia; try assumption.
  rewrite rounded_exact by lia. f_equal.
Qed.

Lemma rounds_off_of_double : forall (c : positive) (k : Z),
  digits c = 53 -> 1 <= k ->
  sum_rounds_off (Zpos c * 2 ^ k)
  = (k =? 4) && (2 ^ 52 + 63 <=? Zpos c) && Z.odd (Zpos c).
Proof.
  intros c k Hc Hk. pose proof (digits_53_bounds c Hc) as Bc.
  unfold sum_rounds_off.
  change (2 ^ 53) with 9007199254740992 in *.
  change (2 ^ 52) with 4503599627370496 in *.
  change (2 ^ 56) with 72057594037927936.
  change (2 ^ 57) with 144115188075855872.
  destruct (Z.eqb_spec k 4) as [->|Hne].
  - change (2 ^ 4) with 16. rewrite Z.div_mul by lia. cbn [andb].
    replace (Z.pos c * 16 <? 144115188075855872) with true
      by (symmetry; apply Z.ltb_lt; lia).
    rewrite andb_true_r. f_equal.
    destruct (Z.leb_spec (4503599627370496 + 63) (Zpos c));
      [apply Z.leb_le | apply Z.leb_gt]; lia.
  - cbn [andb]. destruct (Z.lt_ge_cases k 4) as [Hlt|Hge].
    + assert (HP : 2 ^ k <= 2 ^ 3) by (apply Z.pow_le_mono_r; lia).
      assert (0 < 2 ^ k) by (apply Z.pow_pos_nonneg; lia).
      change (2 ^ 3) with 8 in HP.
      replace (72057594037927936 + 1008 <=? Z.pos c * 2 ^ k) with false
        by (symmetry; apply Z.leb_gt; nia).
      reflexivity.
    + assert (HP : 2 ^ 5 <= 2 ^ k) by (apply Z.pow_le_mono_r; lia).
      change (2 ^ 5) with 32 in HP.
      replace (Z.pos c * 2 ^ k <? 144115188075855872) with false
        by (symmetry; apply Z.ltb_ge; nia).
      rewrite andb_false_r. reflexivity.
Qed.

(** The sum of the delay and of 1000, for every integer from 4096 on
    that a double holds. *)
Lemma sum_characterised : forall e : Z,
  4096 <= e -> is_double_integer e = true ->
  add (sub (of_Z e) (of_Z 1000)) (of_Z 1000)
  = if sum_rounds_off e then of_Z (e - 16) else of_Z e.
Proof.
  intros e He Hd. destruct e as [|p|p]; try lia.
  destruct (Z.le_gt_cases (digits p) 53) as [Hs|Hl].
  - pose proof (digits_bounds p) as [_ Hhi].
    assert (2 ^ digits p <= 2 ^ 53) by (apply Z.pow_le_mono_r; lia).
    assert (Hr : sum_rounds_off (Zpos p) = false).
    { unfold sum_rounds_off.
      replace (2 ^ 56 + 1008 <=? Z.pos p) with false; [reflexivity|].
      symmetry. apply Z.leb_gt.
      change (2 ^ 53) with 9007199254740992 in *.
      change (2 ^ 56) with 72057594037927936. lia. }
    rewrite Hr, sub_of_Z, add_of_Z by lia. f_equal. lia.
  - destruct (double_integer_large p ltac:(lia) Hd) as (c & k & Hc & Hk & E).
    rewrite E, rounds_off_of_double, of_Z_double by (assumption || lia).
    rewrite thousand_and_back by assumption.
    destruct ((k =? 4) && (2 ^ 52 + 63 <=? Z.pos c) && Z.odd (Z.pos c)) eqn:B;
      [|reflexivity].
    apply andb_prop in B as [B _]. apply andb_prop in B as [Bk Bc].
    apply Z.eqb_eq in Bk. apply Z.leb_le in Bc. subst k.
    pose proof (digits_53_bounds c Hc) as Bd.
    change (2 ^ 53) with 9007199254740992 in *.
    change (2 ^ 52) with 4503599627370496 in *.
    replace (Z.pos c * 2 ^ 4 - 16) with (Z.pos (Pos.pred c) * 2 ^ 4)
      by (change (2 ^ 4) with 16; lia).
    rewrite of_Z_double; [reflexivity| |lia].
    apply digits_53. change (2 ^ 53) with 9007199254740992.
    change (2 ^ 52) with 4503599627370496. lia.
Qed.

End DoubleIntegers.

Section EveryDuration.

Lemma digits_succ : forall m : positive,
  digits m <= digits (Pos.succ m) <= digits m + 1.
Proof.
  intros m. pose proof (digits_bounds m) as [Hlo Hhi].
  pose proof (digits_pos m) as Hp. split.
  - replace (digits m) with (digits m - 1 + 1) by lia.
    apply digits_ge; lia.
  - apply digits_le; [lia|]. rewrite Z.pow_add_r by lia.
    change (2 ^ 1) with 2. lia.
Qed.

Lemma shr_fexp_shape : forall m e l, -1074 <= e ->
  exists m', shr_m (fst (shr_fexp prec emax (Zpos m) e l)) = Zpos m' /\
             digits m' <= 53 /\
             digits m' + snd (shr_fexp prec emax (Zpos m) e l) = digits m + e /\
             e <= snd (shr_fexp prec emax (Zpos m) e l).
Proof.
  intros m e l He. unfold shr_fexp, shr. simpl Zdigits2.
  change (Z.pos (digits2_pos m)) with (digits m).
  assert (H0 : shr_m (shr_record_of_loc (Zpos m) l) = Zpos m)
    by (destruct l as [|[]]; reflexivity).
  destruct (fexp prec emax (digits m + e) - e) as [|p|p] eqn:E; cbn [fst snd];
    unfold fexp, SpecFloat.emin, prec, emax in E.
  - exists m. repeat split; try exact H0; lia.
  - assert (Hp : Zpos p < digits m) by lia.
    destruct (iter_shr_pos p _ m H0 Hp) as (m' & H' & D').
    exists m'. repeat split; try exact H'; lia.
  - exists m. repeat split; try exact H0; lia.
Qed.

(** Rounding a positive mantissa gives infinity or a positive double of
    at most 53 bits that is not in a lower binade. *)
Lemma binary_round_aux_shape : forall m e l, -1074 <= e ->
  match binary_round_aux prec emax false (Zpos m) e l with
  | S754_finite false m' e' => digits m' <= 53 /\ digits m + e <= digits m' + e'
  | S754_infinity false => True
  | _ => False
  end.
Proof.
  intros m e l He. rewrite binary_round_aux_stages.
  destruct (shr_fexp_shape m e l He) as (m1 & H1 & D1 & S1 & He1).
  destruct (shr_fexp prec emax (Zpos m) e l) as [mrs' e']. cbn [fst snd] in *.
  assert (Hr : exists m2, round_nearest_even (shr_m mrs') (loc_of_shr_record mrs')
                          = Zpos m2 /\ digits m1 <= digits m2).
  { rewrite H1. unfold round_nearest_even.
    pose proof (digits_succ m1) as Hs.
    replace (Z.pos m1 + 1) with (Z.pos (Pos.succ m1)) by lia.
    destruct (loc_of_shr_record mrs') as [|[]];
      try (exists m1; split; [reflexivity|lia]);
      try (exists (Pos.succ m1); split; [reflexivity|lia]).
    destruct (Z.even (Zpos m1));
      [exists m1 | exists (Pos.succ m1)]; split; try reflexivity; lia. }
  destruct Hr as (m2 & -> & D2).
  unfold round_finish.
  destruct (shr_fexp_shape m2 e' loc_Exact ltac:(lia)) as (m3 & H3 & D3 & S3 & He3).
  destruct (shr_fexp prec emax (Zpos m2) e' loc_Exact) as [mrs'' e'']. cbn [fst snd] in *.
  rewrite H3. destruct (e'' <=? emax - prec); [|exact I]. lia.
Qed.

Lemma of_Z_shape : forall e : Z, 4096 <= e ->
  of_Z e = S754_infinity false \/
  exists m ex, of_Z e = S754_finite false m ex /\
               digits m <= 53 /\ 13 <= digits m + ex.
Proof.
  intros [|p|p] He; try lia.
  assert (Hd : 12 + 1 <= digits p)
    by (apply digits_ge; [lia | change (2 ^ 12) with 4096; lia]).
  unfold of_Z. cbn [binary_normalize]. unfold binary_round.
  change (Z.pos (digits2_pos p)) with (digits p).
  assert (Hal : exists mz ez,
             shl_align p 0 (fexp prec emax (digits p + 0)) = (mz, ez) /\
             -1074 <= ez /\ digits p <= digits mz + ez).
  { unfold shl_align.
    destruct (fexp prec emax (digits p + 0) - 0) as [|d|d] eqn:E.
    - exists p, 0. repeat split; lia.
    - exists p, 0. repeat split; lia.
    - eexists _, _. split; [reflexivity|].
      rewrite digits_iter_xO.
      unfold fexp, SpecFloat.emin, prec, emax in *. lia. }
  destruct Hal as (mz & ez & -> & Hez & Hdz).
  pose proof (binary_round_aux_shape mz ez loc_Exact Hez) as H.
  destruct (binary_round_aux prec emax false (Z.pos mz) ez loc_Exact)
    as [s|[]| |[] m ex]; try contradiction.
  - left. reflexivity.
  - right. exists m, ex. split; [reflexivity|]. lia.
Qed.

(** From 4096 on the transition lasts 1000 ms, whatever the integer. *)
Lemma transitionDuration_every : forall e : Z,
  4096 <= e -> transitionDuration e = of_Z 1000.
Proof.
  intros e He. unfold transitionDuration, MAX_DURATION.
  apply Math_min_of_greater; try reflexivity.
  destruct (of_Z_shape e He) as [->|(m & ex & -> & Hd & Hv)].
  - reflexivity.
  - apply third_of_double_exceeds_maximum; assumption.
Qed.

Lemma leb_zero_of_sign : forall x : number,
  sign_of x = Some false -> leb (of_Z 0) x = true.
Proof.
  intros [[]|[]| |[] m e] H; try discriminate H; reflexivity.
Qed.

(** From 4096 on the delay is not negative, whatever the integer. *)
Lemma delay_not_negative : forall e : Z,
  4096 <= e -> leb (of_Z 0) (sub (of_Z e) (of_Z 1000)) = true.
Proof.
  intros e He.
  destruct (of_Z_shape e He) as [->|(m & ex & -> & Hd & Hv)]; [reflexivity|].
  change (of_Z 1000) with (S754_finite false 8796093022208000 (-43)).
  unfold sub, SFsub.
  destruct (aligned_to_thousand m ex ltac:(lia)) as (E0 & E1 & E2).
  rewrite E0, E1, E2. cbn [cond_Zopp].
  rewrite Zpos_shl by lia.
  pose proof (digits_bounds m) as [Hlo _]. pose proof (digits_pos m) as Hp.
  assert (H1 : 2 ^ (digits m - 1) * 2 ^ (ex + 43) <= Zpos m * 2 ^ (ex + 43)).
  { apply Z.mul_le_mono_nonneg_r; [|exact Hlo]. apply Z.pow_nonneg. lia. }
  rewrite <- Z.pow_add_r in H1 by lia.
  assert (H2 : 2 ^ 55 <= 2 ^ (digits m - 1 + (ex + 43)))
    by (apply Z.pow_le_mono_r; lia).
  change (2 ^ 55) with 36028797018963968 in H2.
  destruct (Z.pos m * 2 ^ (ex + 43) - Z.pos 8796093022208000) as [|M|M] eqn:E;
    try lia.
  cbn [binary_normalize]. apply leb_zero_of_sign, binary_round_sign.
Qed.

End EveryDuration.

(** C4, as the code has it.  While the toast is open, [transition-delay]
    is the double [effectiveDuration - transitionDuration], and it is not
    negative at any duration.  For every duration that is an integer a
    double holds, the delay and the transition duration add up, in double
    arithmetic, to exactly the effective duration, except for the
    durations from 2^56 + 1008 up to 2^57 that are odd multiples of 16:
    there the sum is 16 less. *)
Theorem transition_delay_completes_duration : forall (nextZIndex : Z) (t : Toast),
  open t = true ->
  exists td dl : number,
    transition_duration (styles nextZIndex t) = style_ms td /\
    transition_delay (styles nextZIndex t) = style_ms dl /\
    dl = sub (of_Z (effectiveDuration t)) td /\
    leb (of_Z 0) dl = true /\
    (is_double_integer (duration t) = true ->
       add dl td = if sum_rounds_off (duration t)
                   then of_Z (effectiveDuration t - 16)
                   else of_Z (effectiveDuration t)).
Proof.
  intros z t Hopen.
  exists (transitionDuration (effectiveDuration t)).
  exists (sub (of_Z (effectiveDuration t)) (transitionDuration (effectiveDuration t))).
  split; [unfold styles; cbn [transition_duration]; rewrite Hopen; reflexivity|].
  split; [unfold styles; cbn [transition_delay]; rewrite Hopen; reflexivity|].
  split; [reflexivity|].
  pose proof (effectiveDuration_min t) as Hmin.
  destruct (Z.lt_ge_cases (effectiveDuration t) 4096) as [Hsmall|Hlarge].
  - assert (H : delay_completes (effectiveDuration t) = true)
      by (apply (all_from_spec _ _ _ delay_completes_small); simpl; lia).
    unfold delay_completes in H. apply andb_prop in H as [H1 H2].
    split; [exact H2|]. intros _.
    assert (Hr : sum_rounds_off (duration t) = false).
    { unfold sum_rounds_off.
      replace (2 ^ 56 + 1008 <=? duration t) with false; [reflexivity|].
      symmetry. apply Z.leb_gt. unfold effectiveDuration, MIN_DURATION in *.
      change (2 ^ 56) with 72057594037927936.
      destruct (Z.ltb_spec (duration t) 500); lia. }
    rewrite Hr. apply same_number_eq, H1.
  - assert (He : effectiveDuration t = duration t).
    { unfold effectiveDuration, MIN_DURATION in *.
      destruct (Z.ltb_spec (duration t) 500); lia. }
    rewrite (transitionDuration_every _ Hlarge).
    split; [apply delay_not_negative, Hlarge|].
    intros Hd. rewrite <- He in *. apply sum_characterised; assumption.
Qed.

Lemma transition_delay_completes_duration_witness :
  exists td dl : number,
    transition_duration
      (styles 100 (mkToast 72057594037929552 BottomCenter true false true false))
      = style_ms td /\
    transition_delay
      (styles 100 (mkToast 72057594037929552 BottomCenter true false true false))
      = style_ms dl /\
    dl = sub (of_Z (effectiveDuration
                      (mkToast 72057594037929552 BottomCenter true false true false))) td /\
    leb (of_Z 0) dl = true /\
    (is_double_integer
       (duration (mkToast 72057594037929552 BottomCenter true false true false)) = true ->
       add dl td
       = if sum_rounds_off
              (duration (mkToast 72057594037929552 BottomCenter true false true false))
         then of_Z (effectiveDuration
                      (mkToast 72057594037929552 BottomCenter true false true false) - 16)
         else of_Z (effectiveDuration
                      (mkToast 72057594037929552 BottomCenter true false true false))).
Proof.
  exact (transition_delay_completes_duration 100
           (mkToast 72057594037929552 BottomCenter true false true false) eq_refl).
Defined.

(** C4, as stated, fails beyond the safe integers: for the duration
    2^56 + 1616 the transition lasts 1000 ms, the delay is the double
    2^56 + 608, and their sum is the double 2^56 + 1600, which differs
    from the effective duration. *)
Lemma delay_plus_duration_misses_duration :
  effectiveDuration (mkToast 72057594037929552 BottomCenter true false true false)
    = 72057594037929552 /\
  transition_duration
    (styles 100 (mkToast 72057594037929552 BottomCenter true false true false))
    = style_ms (of_Z 1000) /\
  transition_delay
    (styles 100 (mkToast 72057594037929552 BottomCenter true false true false))
    = style_ms (of_Z 72057594037928544) /\
  add (of_Z 72057594037928544) (of_Z 1000) = of_Z 72057594037929536 /\
  eqb (of_Z 72057594037929536) (of_Z 72057594037929552) = false /\
  of_Z 72057594037929536 <> of_Z 72057594037929552.
Proof.
  repeat split; try (vm_compute; reflexivity).
  vm_compute. discriminate.
Qed.

(* ================================================================== *)
(** * Toast: the invariant *)

Lemma invariant_constructor : invariant (this constructor).
Proof. split; intros H; simpl in *; congruence. Qed.

Lemma invariant_synchronous : forall (op : Operation) (p : Page),
  op <> AnimationFrame ->
  invariant (this p) -> invariant (this (perform op p)).
Proof.
  intros op [[d pl o h r ro] q] Hop [H1 H2]. simpl in *.
  destruct op; try congruence;
    unfold perform, show, onAfterRendering, _ontransitionend, _onmouseover,
           _onmouseleave, _initiateOpening, ifThis, seq, assign, ret; simpl;
    destruct o, h, r, ro; simpl in *; split; intros; congruence || auto.
Qed.

Lemma invariant_initiateOpening : forall p : Page,
  invariant (this p) -> invariant (this (_initiateOpening p)).
Proof.
  intros [[d pl o h r ro] q] [H1 H2]. simpl in *.
  split; intros; simpl in *; auto.
Qed.

Lemma open_only_in_frame : forall (op : Operation) (p : Page),
  op <> AnimationFrame ->
  open (this (perform op p)) = true -> open (this p) = true.
Proof.
  intros op [[d pl o h r ro] q] Hop. simpl.
  destruct op; try congruence;
    unfold perform, show, onAfterRendering, _ontransitionend, _onmouseover,
           _onmouseleave, _initiateOpening, ifThis, seq, assign, ret; simpl;
    destruct o, h, ro; simpl; congruence.
Qed.

Lemma requests_follow_rendering : forall (op : Operation) (p : Page),
  op <> AnimationFrame ->
  frameRequests (perform op p) = frameRequests p \/
  (frameRequests (perform op p) = frameRequests p ++ [OpenCallback] /\
   domRendered (this (perform op p)) = true).
Proof.
  intros op [[d pl o h r ro] q] Hop.
  destruct op; try congruence;
    unfold perform, show, onAfterRendering, _ontransitionend, _onmouseover,
           _onmouseleave, _initiateOpening, ifThis, seq, assign, ret,
           requestAnimationFrame; simpl;
    destruct o, h, ro; simpl; auto.
Qed.

Lemma animationFrame_this : forall p : Page,
  this (animationFrame p) =
    match frameRequests p with
    | [] => this p
    | _ :: _ => set_open true (this p)
    end.
Proof.
  intros [t q]. destruct q as [|cb q] using rev_ind; [reflexivity|].
  unfold animationFrame. simpl frameRequests. simpl this at 1.
  destruct cb. rewrite callbacks_open. simpl.
  destruct (q ++ [OpenCallback]) eqn:E; [|reflexivity].
  destruct q; discriminate E.
Qed.

Lemma invariant_frame : forall p : Page,
  invariant (this p) ->
  domRendered (this p) = true -> _reopen (this p) = false ->
  invariant (this (animationFrame p)).
Proof.
  intros p Hinv Hr Hro. rewrite animationFrame_this.
  destruct (frameRequests p); [exact Hinv|].
  destruct p as [[d pl o h r ro] q]. simpl in *. subst.
  split; intros; simpl in *; congruence.
Qed.

(** C10, as the code has it.  The constructor establishes the invariant
    ([_reopen] excludes [open]; an open toast is rendered).  [show],
    [onAfterRendering], [_initiateOpening], [_ontransitionend],
    [_onmouseover] and [_onmouseleave] preserve it, never turn [open]
    on, and request a callback only together with [domRendered] set;
    [show] always ends with [open] false.  The animation frame preserves
    the invariant when it runs while [domRendered] is set and [_reopen]
    is not. *)
Theorem invariant_kept_by_operations : forall p : Page,
  invariant (this p) ->
  invariant (this constructor) /\
  (forall op, op <> AnimationFrame ->
     invariant (this (perform op p)) /\
     (open (this (perform op p)) = true -> open (this p) = true) /\
     (frameRequests (perform op p) = frameRequests p \/
      (frameRequests (perform op p) = frameRequests p ++ [OpenCallback] /\
       domRendered (this (perform op p)) = true))) /\
  invariant (this (_initiateOpening p)) /\
  open (this (show p)) = false /\
  (domRendered (this p) = true -> _reopen (this p) = false ->
     invariant (this (animationFrame p))).
Proof.
  intros p Hinv. split; [exact invariant_constructor|].
  split.
  { intros op Hop. split; [apply invariant_synchronous; assumption|].
    split; [apply open_only_in_frame; assumption|].
    apply requests_follow_rendering; assumption. }
  split; [apply invariant_initiateOpening, Hinv|].
  split.
  { destruct p as [[d pl o h r ro] q]. unfold show, ifThis. simpl.
    destruct o; simpl in *; [reflexivity|]. reflexivity. }
  apply invariant_frame, Hinv.
Qed.

Lemma invariant_kept_by_operations_witness :
  invariant (this constructor) /\
  (forall op, op <> AnimationFrame ->
     invariant (this (perform op (show constructor))) /\
     (open (this (perform op (show constructor))) = true ->
        open (this (show constructor)) = true) /\
     (frameRequests (perform op (show constructor)) = frameRequests (show constructor) \/
      (frameRequests (perform op (show constructor))
         = frameRequests (show constructor) ++ [OpenCallback] /\
       domRendered (this (perform op (show constructor))) = true))) /\
  invariant (this (_initiateOpening (show constructor))) /\
  open (this (show (show constructor))) = false /\
  (domRendered (this (show constructor)) = true ->
   _reopen (this (show constructor)) = false ->
     invariant (this (animationFrame (show constructor)))).
Proof.
  apply (invariant_kept_by_operations (show constructor)).
  split; intros H; simpl in *; congruence.
Defined.

(** C10, as stated, fails: after a re-show, a transition end that comes
    before the requested animation frame leaves the toast open and not
    rendered. *)
Lemma invariant_broken_by_late_frame :
  run [Show; AnimationFrame; Show; AfterRendering; TransitionEnd; AnimationFrame]
      constructor
    = mkPage (mkToast 3000 BottomCenter true false false false) [] /\
  ~ invariant (this (run [Show; AnimationFrame; Show; AfterRendering;
                          TransitionEnd; AnimationFrame] constructor)).
Proof.
  split; [reflexivity|].
  intros [_ H]. simpl in H. specialize (H eq_refl). discriminate H.
Qed.

(* ================================================================== *)
(** * Upload collection: file names *)

Import UploadCollection.

Section FileNames.
Local Open Scope string_scope.

Lemma no_dot_no_split : forall s : string,
  has_dot s = false -> beforeLastDot s = None /\ afterLastDot s = None.
Proof.
  induction s as [|c r IH]; intros H; [split; reflexivity|].
  simpl in H. apply orb_false_elim in H as [Hc Hr].
  destruct (IH Hr) as [Hb Ha]. simpl. rewrite Hb, Ha, Hc. split; reflexivity.
Qed.

Lemma before_none_no_dot : forall s : string,
  beforeLastDot s = None -> has_dot s = false.
Proof.
  induction s as [|c r IH]; intros H; [reflexivity|].
  simpl in *. destruct (beforeLastDot r); [discriminate H|].
  destruct (Ascii.eqb c "."); [discriminate H|]. apply IH. reflexivity.
Qed.

Lemma after_none_no_dot : forall s : string,
  afterLastDot s = None -> has_dot s = false.
Proof.
  induction s as [|c r IH]; intros H; [reflexivity|].
  simpl in *. destruct (afterLastDot r); [discriminate H|].
  destruct (Ascii.eqb c "."); [discriminate H|]. apply IH. reflexivity.
Qed.

Lemma split_at_last_dot : forall s b e : string,
  beforeLastDot s = Some b -> afterLastDot s = Some e ->
  s = b ++ String "." e /\ has_dot e = false.
Proof.
  induction s as [|c r IH]; intros b e Hb He; [discriminate Hb|].
  simpl in Hb, He.
  destruct (beforeLastDot r) as [b'|] eqn:Eb.
  - destruct (afterLastDot r) as [e'|] eqn:Ea.
    + inversion Hb; subst. inversion He; subst.
      destruct (IH b' e eq_refl eq_refl) as [-> Hd]. split; [reflexivity|exact Hd].
    + apply after_none_no_dot, no_dot_no_split in Ea. destruct Ea. congruence.
  - pose proof (before_none_no_dot _ Eb) as Hd.
    destruct (no_dot_no_split _ Hd) as [_ Ha]. rewrite Ha in He.
    destruct (Ascii.eqb_spec c "."); [|discriminate Hb].
    inversion Hb; subst. inversion He; subst. split; [reflexivity|exact Hd].
Qed.

Lemma append_empty : forall s : string, s ++ "" = s.
Proof. induction s as [|c r IH]; simpl; [reflexivity | rewrite IH; reflexivity]. Qed.

Lemma name_is_base_and_extension : forall name : string,
  name = _fileNameWithoutExtension name ++ _fileExtension name.
Proof.
  intros name. unfold _fileNameWithoutExtension, _fileExtension.
  destruct (beforeLastDot name) as [[|c b]|] eqn:Eb;
    destruct (afterLastDot name) as [e|] eqn:Ea;
    try (rewrite append_empty; reflexivity).
  apply (split_at_last_dot _ _ _ Eb Ea).
Qed.

(** The extension is empty, or it is the last dot of the name and the
    substring after it, and the base name before the dot is not empty. *)
Lemma extension_after_last_dot : forall name : string,
  _fileExtension name = "" \/
  exists b e : string,
    name = b ++ String "." e /\ has_dot e = false /\ b <> "" /\
    _fileExtension name = String "." e /\
    _fileNameWithoutExtension name = b.
Proof.
  intros name. unfold _fileNameWithoutExtension, _fileExtension.
  destruct (beforeLastDot name) as [[|c b]|] eqn:Eb;
    destruct (afterLastDot name) as [e|] eqn:Ea; auto.
  right. exists (String c b), e.
  destruct (split_at_last_dot _ _ _ Eb Ea) as [H1 H2].
  repeat split; try assumption; try reflexivity. discriminate.
Qed.

Lemma leading_dot_no_extension : forall r : string,
  has_dot r = false -> _fileExtension (String "." r) = "".
Proof.
  intros r H. unfold _fileExtension. simpl.
  destruct (no_dot_no_split r H) as [Hb _]. rewrite Hb. reflexivity.
Qed.

Lemma split_of_append : forall t e : string,
  has_dot e = false ->
  beforeLastDot (t ++ String "." e) = Some t /\
  afterLastDot (t ++ String "." e) = Some e.
Proof.
  intros t e He. destruct (no_dot_no_split e He) as [Hb Ha].
  induction t as [|c t [IHb IHa]]; simpl.
  - rewrite Hb, Ha. split; reflexivity.
  - rewrite IHb, IHa. split; reflexivity.
Qed.

(** A name with a dot after its first character has an extension: the
    last dot and what follows it; the base name is what precedes it. *)
Lemma extension_of_dotted_name : forall b e : string,
  b <> "" -> has_dot e = false ->
  _fileExtension (b ++ String "." e) = String "." e /\
  _fileNameWithoutExtension (b ++ String "." e) = b.
Proof.
  intros b e Hb He. destruct (split_of_append b e He) as [H1 H2].
  unfold _fileExtension, _fileNameWithoutExtension. rewrite H1, H2.
  destruct b; [contradiction|]. split; reflexivity.
Qed.

Lemma no_dot_no_extension : forall name : string,
  has_dot name = false ->
  _fileExtension name = "" /\ _fileNameWithoutExtension name = name.
Proof.
  intros name H. destruct (no_dot_no_split name H) as [Hb Ha].
  unfold _fileExtension, _fileNameWithoutExtension. rewrite Hb.
  split; reflexivity.
Qed.

End FileNames.

(** C1. The name of an item is its base name followed by its extension.
    Every name with a dot after its first character has an extension,
    namely its last dot and the substring after it, and what precedes
    that dot as its base name; a name without a dot, or whose only dot is
    the leading one, has none.  The edit input holds the base name, and
    confirming a rename appends the extension to what was entered. *)
Theorem rename_keeps_extension : forall (it : Item) (text r : string),
  fileName it = (_fileNameWithoutExtension (fileName it)
                 ++ _fileExtension (fileName it))%string /\
  (_fileExtension (fileName it) = EmptyString \/
   exists b e : string,
     fileName it = (b ++ String "." e)%string /\ has_dot e = false /\
     b <> EmptyString /\
     _fileExtension (fileName it) = String "." e /\
     _fileNameWithoutExtension (fileName it) = b) /\
  editInput (_onDetailClick it) = _fileNameWithoutExtension (fileName it) /\
  fileName (_onRename (typeKeys text (_onDetailClick it)))
    = (text ++ _fileExtension (fileName it))%string /\
  _editing (_onRename (typeKeys text (_onDetailClick it))) = false /\
  (has_dot r = false -> _fileExtension (String "." r) = EmptyString) /\
  (_fileExtension (fileName it) = EmptyString ->
   fileName (_onRename (typeKeys "newFileName2"
              (_onDetailClick
                 (_onRename (typeKeys "newFileName.newExtension"
                    (_onDetailClick it))))))
     = "newFileName2.newExtension"%string) /\
  _fileExtension ".gitignore" = EmptyString /\
  (forall b e : string,
     b <> EmptyString -> has_dot e = false ->
     _fileExtension (b ++ String "." e) = String "." e /\
     _fileNameWithoutExtension (b ++ String "." e) = b) /\
  (forall name : string,
     has_dot name = false ->
     _fileExtension name = EmptyString /\
     _fileNameWithoutExtension name = name).
Proof.
  intros it text r.
  split; [apply name_is_base_and_extension|].
  split; [apply extension_after_last_dot|].
  split; [reflexivity|].
  split; [reflexivity|].
  split; [reflexivity|].
  split; [apply leading_dot_no_extension|].
  split.
  { destruct it as [i n ed inp hd dd]. unfold _onDetailClick, typeKeys, _onRename.
    simpl. intros ->. reflexivity. }
  split; [reflexivity|].
  split; [apply extension_of_dotted_name | apply no_dot_no_extension].
Qed.

Lemma rename_keeps_extension_witness :
  fileName (_onRename (typeKeys "last.reports-edited"
              (_onDetailClick
                 (mkItem "errorState" "latest-reports.pdf" false "" false false))))
    = "last.reports-edited.pdf"%string /\
  fileName (_onRename (typeKeys "newFileName2"
             (_onDetailClick
                (_onRename (typeKeys "newFileName.newExtension"
                   (_onDetailClick
                      (mkItem "readyState" "noextension" false "" false false)))))))
    = "newFileName2.newExtension"%string.
Proof.
  split.
  - exact (proj1 (proj2 (proj2 (proj2
      (rename_keeps_extension
         (mkItem "errorState" "latest-reports.pdf" false "" false false)
         "last.reports-edited" ""))))).
  - exact (proj1 (proj2 (proj2 (proj2 (proj2 (proj2 (proj2
      (rename_keeps_extension
         (mkItem "readyState" "noextension" false "" false false)
         "" ""))))))) eq_refl).
Defined.

(* ================================================================== *)
(** * Upload collection: cancelling and deleting *)

Section Keyboard.

Lemma set_editInput_same : forall it : Item, set_editInput (editInput it) it = it.
Proof. intros []. reflexivity. Qed.

Lemma typing_appends : forall (cs : list ascii) (it : Item),
  pressKeys (map Char cs) (mkEditing it OnInput false)
  = mkEditing
      (set_editInput (editInput it ++ string_of_list_ascii cs) it) OnInput false.
Proof.
  induction cs as [|c cs IH]; intros it.
  - simpl. rewrite append_empty, set_editInput_same. reflexivity.
  - change (pressKeys (map Char (c :: cs)) (mkEditing it OnInput false))
      with (pressKeys (map Char cs)
              (pressKey (Char c) (mkEditing it OnInput false))).
    cbn [pressKey focus selected edited]. rewrite IH.
    destruct it as [i n ed inp hd dd]. unfold set_editInput. cbn.
    f_equal. f_equal.
    induction inp as [|a inp IHi]; [reflexivity|].
    simpl. f_equal. exact IHi.
Qed.

(** Typing a text that is not empty replaces the selected base name. *)
Lemma typing_replaces_selection : forall (text : string) (it : Item),
  text <> EmptyString ->
  pressKeys (keysOf text) (startEditing it)
  = mkEditing (typeKeys text (_onDetailClick it)) OnInput false.
Proof.
  intros [|c text] it H; [contradiction|].
  unfold keysOf, startEditing.
  change (list_ascii_of_string (String c text))
    with (c :: list_ascii_of_string text).
  change (pressKeys (map Char (c :: ?cs)) ?s)
    with (pressKeys (map Char cs) (pressKey (Char c) s)).
  cbn [pressKey focus selected edited]. rewrite typing_appends.
  destruct it as [i n ed inp hd dd].
  unfold typeKeys, _onDetailClick, set_editInput, set_editing. cbn.
  rewrite string_of_list_ascii_of_string. reflexivity.
Qed.

Lemma typing_keeps_file_name : forall (text : string) (it : Item),
  fileName (edited (pressKeys (keysOf text) (startEditing it))) = fileName it /\
  _editing (edited (pressKeys (keysOf text) (startEditing it))) = true /\
  focus (pressKeys (keysOf text) (startEditing it)) = OnInput.
Proof.
  intros text it. destruct text as [|c text].
  - destruct it. repeat split; reflexivity.
  - rewrite typing_replaces_selection by discriminate.
    destruct it. repeat split; reflexivity.
Qed.

End Keyboard.

(** C9. Whatever text is typed into the edit input, moving to the cancel
    button (Tab, Tab) and activating it (Enter) ends the edit and leaves
    the file name the one before the edit; the typed text had reached
    the input, and Enter in the input would have renamed the file. *)
Theorem cancel_keeps_file_name : forall (it : Item) (text : string),
  fileName (edited (pressKeys (keysOf text ++ [Tab; Tab; Enter]) (startEditing it)))
    = fileName it /\
  _editing (edited (pressKeys (keysOf text ++ [Tab; Tab; Enter]) (startEditing it)))
    = false /\
  focus (pressKeys (keysOf text ++ [Tab; Tab]) (startEditing it)) = OnCancelButton /\
  (text <> EmptyString ->
     editInput (edited (pressKeys (keysOf text ++ [Tab; Tab]) (startEditing it)))
       = text /\
     fileName (edited (pressKeys (keysOf text ++ [Enter]) (startEditing it)))
       = (text ++ _fileExtension (fileName it))%string).
Proof.
  intros it text. unfold pressKeys. rewrite !fold_left_app.
  fold (pressKeys (keysOf text) (startEditing it)).
  destruct (typing_keeps_file_name text it) as (Hn & He & Hf).
  destruct (pressKeys (keysOf text) (startEditing it)) as [it' f sel] eqn:E.
  cbn [edited focus] in Hn, He, Hf. subst f.
  cbn [fold_left pressKey focus edited selected].
  split; [exact Hn|]. split; [reflexivity|]. split; [reflexivity|].
  intros Ht. rewrite typing_replaces_selection in E by exact Ht.
  inversion E; subst. destruct it as [i n ed inp hd dd].
  split; reflexivity.
Qed.

Lemma cancel_keeps_file_name_witness :
  fileName (edited (pressKeys (keysOf "new name" ++ [Tab; Tab; Enter])
                      (startEditing
                         (mkItem "hiddenFileName" ".gitignore" false "" false false))))
    = ".gitignore"%string /\
  fileName (edited (pressKeys (keysOf "new name" ++ [Enter])
                      (startEditing
                         (mkItem "hiddenFileName" ".gitignore" false "" false false))))
    = "new name"%string.
Proof.
  split.
  - exact (proj1 (cancel_keeps_file_name
             (mkItem "hiddenFileName" ".gitignore" false "" false false) "new name")).
  - refine (proj2 (proj2 (proj2 (proj2 (cancel_keeps_file_name
             (mkItem "hiddenFileName" ".gitignore" false "" false false) "new name"))) _)).
    discriminate.
Defined.

Section Deleting.





Lemma find_item_id : forall (i : string) (uc : Collection) (it : Item),
  find_item i uc = Some it -> id it = i /\ In it (items uc).
Proof.
  intros i uc it H. unfold find_item in H.
  apply find_some in H as [Hin He]. apply String.eqb_eq in He. split; assumption.
Qed.

End Deleting.




(* ================================================================== *)
(** * Toast: more on the computed styles *)

Lemma transitionDuration_large : forall e : Z,
  4096 <= e < 2 ^ 53 -> transitionDuration e = of_Z 1000.
Proof.
  intros e He. unfold transitionDuration, MAX_DURATION.
  destruct (of_Z_large e He) as (c & -> & Hc & Hof).
  apply Math_min_of_greater; try reflexivity.
  rewrite Hof. apply third_exceeds_maximum, Hc.
Qed.

Lemma fade_below_cap_small : all_from fade_below_cap 500 2500 = true.
Proof. vm_compute. reflexivity. Qed.

Lemma fade_at_cap_small : all_from fade_at_cap 3000 1096 = true.
Proof. vm_compute. reflexivity. Qed.

Lemma delay_outlasts_fade_small : all_from delay_outlasts_fade 500 3596 = true.
Proof. vm_compute. reflexivity. Qed.

Lemma effectiveDuration_safe : forall t : Toast,
  duration t <= MAX_SAFE_INTEGER -> 500 <= effectiveDuration t < 2 ^ 53.
Proof.
  intros t H. unfold effectiveDuration, MIN_DURATION, MAX_SAFE_INTEGER in *.
  destruct (Z.ltb_spec (duration t) 500); lia.
Qed.

(** The transition lasts a third of the effective duration while that
    is below 3000 ms (between a third of 500 ms and less than 1000 ms),
    and exactly 1000 ms from 3000 ms on. *)
Theorem transition_duration_range : forall (nextZIndex : Z) (t : Toast),
  open t = true ->
  duration t <= MAX_SAFE_INTEGER ->
  transition_duration (styles nextZIndex t)
    = style_ms (transitionDuration (effectiveDuration t)) /\
  leb (div (of_Z 500) (of_Z 3)) (transitionDuration (effectiveDuration t)) = true /\
  (effectiveDuration t < 3000 ->
     transitionDuration (effectiveDuration t)
       = div (of_Z (effectiveDuration t)) (of_Z 3) /\
     ltb (transitionDuration (effectiveDuration t)) (of_Z 1000) = true) /\
  (3000 <= effectiveDuration t ->
     transitionDuration (effectiveDuration t) = of_Z 1000).
Proof.
  intros z t Hopen Hsafe.
  pose proof (effectiveDuration_safe t Hsafe) as He.
  set (e := effectiveDuration t) in *.
  split; [unfold styles; simpl; rewrite Hopen; reflexivity|].
  assert (Hcap : 3000 <= e -> transitionDuration e = of_Z 1000).
  { intros H3. destruct (Z.lt_ge_cases e 4096) as [Hs|Hl].
    - apply same_number_eq.
      apply (all_from_spec _ _ _ fade_at_cap_small e). simpl. lia.
    - apply transitionDuration_large. lia. }
  assert (Hlow : e < 3000 -> fade_below_cap e = true).
  { intros H3. apply (all_from_spec _ _ _ fade_below_cap_small e). simpl. lia. }
  split.
  { destruct (Z.lt_ge_cases e 3000) as [H3|H3].
    - specialize (Hlow H3). unfold fade_below_cap in Hlow.
      apply andb_prop in Hlow as [_ H]. exact H.
    - rewrite (Hcap H3). vm_compute. reflexivity. }
  split; [|exact Hcap].
  intros H3. specialize (Hlow H3). unfold fade_below_cap in Hlow.
  apply andb_prop in Hlow as [H _]. apply andb_prop in H as [H1 H2].
  split; [apply same_number_eq, H1 | exact H2].
Qed.

Lemma transition_duration_range_witness :
  transition_duration (styles 7 (mkToast 2999 TopEnd true false true false))
    = style_ms (transitionDuration
                  (effectiveDuration (mkToast 2999 TopEnd true false true false))) /\
  leb (div (of_Z 500) (of_Z 3))
      (transitionDuration
         (effectiveDuration (mkToast 2999 TopEnd true false true false))) = true /\
  (effectiveDuration (mkToast 2999 TopEnd true false true false) < 3000 ->
     transitionDuration (effectiveDuration (mkToast 2999 TopEnd true false true false))
       = div (of_Z (effectiveDuration (mkToast 2999 TopEnd true false true false)))
             (of_Z 3) /\
     ltb (transitionDuration
            (effectiveDuration (mkToast 2999 TopEnd true false true false)))
         (of_Z 1000) = true) /\
  (3000 <= effectiveDuration (mkToast 2999 TopEnd true false true false) ->
     transitionDuration (effectiveDuration (mkToast 2999 TopEnd true false true false))
       = of_Z 1000).
Proof.
  apply (transition_duration_range 7 (mkToast 2999 TopEnd true false true false)).
  - reflexivity.
  - vm_compute. discriminate.
Defined.

Lemma delay_outlasts_fade_large : forall e : Z,
  4096 <= e < 2 ^ 53 -> delay_outlasts_fade e = true.
Proof.
  intros e He. unfold delay_outlasts_fade.
  rewrite transitionDuration_large by exact He.
  rewrite sub_of_Z by lia.
  assert (Hd : 0 < e - 1000 < 2 ^ 53) by lia.
  destruct (e - 1000) as [|c|c] eqn:E; try lia.
  assert (Hhi : digits c <= 53) by (apply digits_le; lia).
  assert (Hlo : 11 + 1 <= digits c)
    by (apply digits_ge; [lia | change (2 ^ 11) with 2048; lia]).
  rewrite (of_Z_pos c) by exact Hhi.
  change (of_Z 1000) with (S754_finite false 8796093022208000 (-43)).
  unfold double_of_pos, leb, SFleb, SFcompare.
  destruct (Z.compare_spec (-43) (digits c - 53)); try reflexivity; lia.
Qed.

(** For every duration up to [Number.MAX_SAFE_INTEGER] the delay before
    the transition is at least as long as the transition itself. *)
Theorem delay_outlasts_transition : forall (nextZIndex : Z) (t : Toast),
  open t = true ->
  duration t <= MAX_SAFE_INTEGER ->
  exists td dl : number,
    transition_duration (styles nextZIndex t) = style_ms td /\
    transition_delay (styles nextZIndex t) = style_ms dl /\
    leb td dl = true.
Proof.
  intros z t Hopen Hsafe.
  pose proof (effectiveDuration_safe t Hsafe) as He.
  exists (transitionDuration (effectiveDuration t)).
  exists (sub (of_Z (effectiveDuration t)) (transitionDuration (effectiveDuration t))).
  unfold styles. simpl. rewrite Hopen.
  split; [reflexivity|]. split; [reflexivity|].
  change (delay_outlasts_fade (effectiveDuration t) = true).
  destruct (Z.lt_ge_cases (effectiveDuration t) 4096) as [Hs|Hl].
  - apply (all_from_spec _ _ _ delay_outlasts_fade_small). simpl. lia.
  - apply delay_outlasts_fade_large. lia.
Qed.

Lemma delay_outlasts_transition_witness :
  exists td dl : number,
    transition_duration (styles 7 (mkToast 3000 BottomCenter true false true false))
      = style_ms td /\
    transition_delay (styles 7 (mkToast 3000 BottomCenter true false true false))
      = style_ms dl /\
    leb td dl = true.
Proof.
  apply (delay_outlasts_transition 7 (mkToast 3000 BottomCenter true false true false)).
  - reflexivity.
  - vm_compute. discriminate.
Defined.

(** The opacity is "0" exactly while the toast is open and not hovered;
    hovering an open toast clears the opacity and leaves both timing
    values as they are, and leaving it restores the opacity; a toast
    that is not open has no timing and no opacity. *)
Theorem styles_follow_open_and_hover : forall (nextZIndex : Z) (p : Page),
  (opacity (styles nextZIndex (this p)) = style_text "0"
     <-> open (this p) = true /\ hover (this p) = false) /\
  (open (this p) = true ->
     opacity (styles nextZIndex (this (_onmouseover p))) = style_empty /\
     opacity (styles nextZIndex (this (_onmouseleave p))) = style_text "0" /\
     transition_duration (styles nextZIndex (this (_onmouseover p)))
       = transition_duration (styles nextZIndex (this p)) /\
     transition_delay (styles nextZIndex (this (_onmouseover p)))
       = transition_delay (styles nextZIndex (this p))) /\
  (open (this p) = false ->
     transition_duration (styles nextZIndex (this p)) = style_empty /\
     transition_delay (styles nextZIndex (this p)) = style_empty /\
     opacity (styles nextZIndex (this p)) = style_empty) /\
  z_index (styles nextZIndex (this p)) = style_index nextZIndex.
Proof.
  intros z [[d pl o h r ro] q]. unfold styles. simpl.
  split.
  { destruct o, h; simpl; split; intros H;
      try discriminate H; try (destruct H; discriminate); auto. }
  split; [intros ->; simpl; auto|].
  split; [intros ->; simpl; auto|reflexivity].
Qed.

(* ================================================================== *)
(** * Toast: how the operations compose *)

(** A toast that is closed and idle, once shown, opened by the next
    animation frame and closed by the end of its transition, is in the
    state it started from. *)
Theorem shown_toast_closes_to_start : forall p : Page,
  open (this p) = false -> domRendered (this p) = false ->
  hover (this p) = false -> frameRequests p = [] ->
  open (this (animationFrame (show p))) = true /\
  _ontransitionend (animationFrame (show p)) = p.
Proof.
  intros [[d pl o h r ro] q]. simpl. intros -> -> -> ->.
  split; reflexivity.
Qed.

Lemma shown_toast_closes_to_start_witness :
  open (this (animationFrame (show constructor))) = true /\
  _ontransitionend (animationFrame (show constructor)) = constructor.
Proof.
  apply (shown_toast_closes_to_start constructor); reflexivity.
Defined.

Lemma ontransitionend_hovered_repeat : forall (n : nat) (p : Page),
  hover (this p) = true -> repeat_method n _ontransitionend p = p.
Proof.
  induction n as [|n IH]; intros p H; [reflexivity|].
  simpl. unfold seq.
  assert (E : _ontransitionend p = p)
    by (unfold _ontransitionend, ifThis; rewrite H; reflexivity).
  rewrite E. apply IH, H.
Qed.

(** A hovered toast stays as it is through any number of transition
    ends; once the pointer has left, the next transition end closes it. *)
Theorem hover_keeps_toast_until_leave : forall (n : nat) (p : Page),
  repeat_method n _ontransitionend (_onmouseover p) = _onmouseover p /\
  open (this (_ontransitionend (_onmouseleave
          (repeat_method n _ontransitionend (_onmouseover p))))) = false /\
  domRendered (this (_ontransitionend (_onmouseleave
          (repeat_method n _ontransitionend (_onmouseover p))))) = false /\
  frameRequests (_ontransitionend (_onmouseleave
          (repeat_method n _ontransitionend (_onmouseover p)))) = frameRequests p.
Proof.
  intros n p.
  assert (E : repeat_method n _ontransitionend (_onmouseover p) = _onmouseover p)
    by (apply ontransitionend_hovered_repeat; reflexivity).
  rewrite E. destruct p as [[d pl o h r ro] q]. repeat split; reflexivity.
Qed.

Lemma perform_keeps_properties : forall (op : Operation) (p : Page),
  duration (this (perform op p)) = duration (this p) /\
  placement (this (perform op p)) = placement (this p) /\
  (op <> MouseOver -> op <> MouseLeave ->
     hover (this (perform op p)) = hover (this p)).
Proof.
  intros op p.
  destruct op; try (destruct p as [[d pl o h r ro] q]; simpl;
    unfold show, onAfterRendering, _ontransitionend, ifThis; simpl;
    destruct o, h, ro; simpl; repeat split; congruence).
  simpl. rewrite animationFrame_this.
  destruct (frameRequests p); repeat split; reflexivity.
Qed.

(** No operation writes the public properties: through every sequence
    of operations [duration] and [placement] are what they were, and
    [hover] changes only through the two pointer handlers. *)
Theorem operations_keep_properties : forall (ops : list Operation) (p : Page),
  duration (this (run ops p)) = duration (this p) /\
  placement (this (run ops p)) = placement (this p) /\
  (~ In MouseOver ops -> ~ In MouseLeave ops ->
     hover (this (run ops p)) = hover (this p)).
Proof.
  induction ops as [|op ops IH]; intros p; [repeat split; reflexivity|].
  change (run (op :: ops) p) with (run ops (perform op p)).
  destruct (IH (perform op p)) as (Hd & Hp & Hh).
  destruct (perform_keeps_properties op p) as (Hd' & Hp' & Hh').
  split; [congruence|]. split; [congruence|].
  intros H1 H2. rewrite Hh.
  - apply Hh'; intros ->; [apply H1 | apply H2]; left; reflexivity.
  - intros Hin. apply H1. right. exact Hin.
  - intros Hin. apply H2. right. exact Hin.
Qed.

Lemma repeat_show_closed : forall (n : nat) (p : Page),
  open (this p) = false ->
  this (repeat_method (S n) show p) = set_domRendered true (this p) /\
  frameRequests (repeat_method (S n) show p)
    = frameRequests p ++ repeat OpenCallback (S n).
Proof.
  induction n as [|n IH]; intros [[d pl o h r ro] q] H; simpl in H; subst.
  - split; reflexivity.
  - change (repeat_method (S (S n)) show ?x)
      with (repeat_method (S n) show (show x)).
    destruct (IH (show (mkPage (mkToast d pl false h r ro) q)) eq_refl) as [H1 H2].
    rewrite H1, H2. split; [reflexivity|].
    simpl. rewrite <- app_assoc. reflexivity.
Qed.

(** Showing a closed toast several times before the next animation
    frame requests one callback per call, and the frame leaves the toast
    as a single [show] would; afterwards no callback is pending. *)
Theorem repeated_show_opens_once : forall (n : nat) (p : Page),
  open (this p) = false ->
  frameRequests (repeat_method (S n) show p)
    = frameRequests p ++ repeat OpenCallback (S n) /\
  this (animationFrame (repeat_method (S n) show p))
    = this (animationFrame (show p)) /\
  open (this (animationFrame (repeat_method (S n) show p))) = true /\
  frameRequests (animationFrame (repeat_method (S n) show p)) = [].
Proof.
  intros n p H. destruct (repeat_show_closed n p H) as [H1 H2].
  destruct (repeat_show_closed 0 p H) as [H3 H4].
  split; [exact H2|].
  assert (E : this (animationFrame (repeat_method (S n) show p))
              = this (animationFrame (show p))).
  { rewrite !animationFrame_this.
    change (show p) with (repeat_method 1 show p).
    rewrite H1, H2, H3, H4.
    destruct (frameRequests p); reflexivity. }
  split; [exact E|]. split; [|apply animationFrame_empties_queue].
  rewrite E. destruct p as [[d pl o h r ro] q]. simpl in H. subst.
  unfold show, ifThis, _initiateOpening, seq. simpl.
  rewrite animationFrame_after_request. reflexivity.
Qed.

Lemma repeated_show_opens_once_witness :
  frameRequests (repeat_method 3 show constructor)
    = frameRequests constructor ++ repeat OpenCallback 3 /\
  this (animationFrame (repeat_method 3 show constructor))
    = this (animationFrame (show constructor)) /\
  open (this (animationFrame (repeat_method 3 show constructor))) = true /\
  frameRequests (animationFrame (repeat_method 3 show constructor)) = [].
Proof.
  apply (repeated_show_opens_once 2 constructor). reflexivity.
Defined.

(** [onAfterRendering] does nothing unless a re-show is pending, always
    ends with [_reopen] false, and running it twice is running it once. *)
Theorem onAfterRendering_once : forall p : Page,
  (_reopen (this p) = false -> onAfterRendering p = p) /\
  _reopen (this (onAfterRendering p)) = false /\
  onAfterRendering (onAfterRendering p) = onAfterRendering p.
Proof.
  intros [[d pl o h r ro] q]. unfold onAfterRendering, ifThis. simpl.
  destruct ro; simpl; repeat split; try reflexivity; intros H; discriminate H.
Qed.

(** Re-showing an open toast (with nothing pending) passes through a
    state with [open] false and, after the rendering and the next
    animation frame, is back in the state it was in. *)
Theorem reshow_returns_to_open : forall p : Page,
  open (this p) = true -> domRendered (this p) = true ->
  _reopen (this p) = false -> frameRequests p = [] ->
  open (this (show p)) = false /\
  open (this (onAfterRendering (show p))) = false /\
  animationFrame (onAfterRendering (show p)) = p.
Proof.
  intros [[d pl o h r ro] q]. simpl. intros -> -> -> ->.
  repeat split; reflexivity.
Qed.

Lemma reshow_returns_to_open_witness :
  open (this (show (animationFrame (show constructor)))) = false /\
  open (this (onAfterRendering (show (animationFrame (show constructor))))) = false /\
  animationFrame (onAfterRendering (show (animationFrame (show constructor))))
    = animationFrame (show constructor).
Proof.
  apply (reshow_returns_to_open (animationFrame (show constructor))); reflexivity.
Defined.

(* ================================================================== *)
(** * Toast: the invariant under two scheduling conditions *)

Lemma run_permitted_is_run : forall (ops : list Operation) (p p' : Page),
  run_permitted ops p = Some p' -> run ops p = p'.
Proof.
  induction ops as [|op ops IH]; intros p p' H; simpl in H.
  - inversion H. reflexivity.
  - destruct (permitted op p); [|discriminate H].
    change (run (op :: ops) p) with (run ops (perform op p)). apply IH, H.
Qed.

Lemma scheduled_step : forall (op : Operation) (p : Page),
  permitted op p = true ->
  invariant (this p) ->
  (frameRequests p <> [] ->
     domRendered (this p) = true /\ _reopen (this p) = false /\
     open (this p) = false) ->
  invariant (this (perform op p)) /\
  (frameRequests (perform op p) <> [] ->
     domRendered (this (perform op p)) = true /\
     _reopen (this (perform op p)) = false /\
     open (this (perform op p)) = false).
Proof.
  intros op p Hperm [H1 H2] Hq.
  destruct op.
  - (* show *)
    destruct p as [[d pl o h r ro] q]. simpl in *.
    apply negb_true_iff in Hperm. subst ro.
    unfold show, ifThis. simpl. destruct o; simpl.
    + split; [split; intros; simpl in *; congruence|].
      intros Hne. destruct (Hq Hne) as (_ & _ & Ho). discriminate Ho.
    + split; [split; intros; simpl in *; congruence|].
      intros _. repeat split.
  - (* onAfterRendering *)
    destruct p as [[d pl o h r ro] q]. simpl in *.
    unfold onAfterRendering, ifThis. simpl. destruct ro; simpl.
    + specialize (H1 eq_refl). subst o.
      split; [split; intros; simpl in *; congruence|].
      intros _. repeat split.
    + split; [split; assumption|exact Hq].
  - (* _ontransitionend *)
    destruct p as [[d pl o h r ro] q]. simpl in *.
    destruct q; [|discriminate Hperm].
    unfold _ontransitionend, ifThis. simpl. destruct h; simpl.
    + split; [split; assumption|]. intros Hne. contradiction Hne. reflexivity.
    + split; [split; intros; simpl in *; auto; congruence|].
      intros Hne. contradiction Hne. reflexivity.
  - (* _onmouseover *)
    destruct p as [[d pl o h r ro] q]. simpl in *.
    split; [split; assumption|exact Hq].
  - (* _onmouseleave *)
    destruct p as [[d pl o h r ro] q]. simpl in *.
    split; [split; assumption|exact Hq].
  - (* animation frame *)
    simpl perform. split.
    + rewrite animationFrame_this. destruct (frameRequests p) eqn:E.
      * split; assumption.
      * destruct Hq as (Hr & Hro & Ho); [discriminate|].
        destruct p as [[d pl o h r ro] q]. simpl in *. subst.
        split; intros; simpl in *; congruence.
    + intros Hne. contradiction Hne. apply animationFrame_empties_queue.
Qed.

(** When no [show] comes while a re-show awaits its rendering and no
    transition ends while a requested animation frame has not run, every
    state reached from the constructor satisfies the invariant, and an
    animation frame is pending only for a rendered, closed toast. *)
Theorem invariant_under_scheduling : forall (ops : list Operation) (p : Page),
  run_permitted ops constructor = Some p ->
  run ops constructor = p /\
  invariant (this p) /\
  (frameRequests p <> [] ->
     domRendered (this p) = true /\ _reopen (this p) = false /\
     open (this p) = false).
Proof.
  intros ops p H. split; [apply run_permitted_is_run, H|].
  assert (G : forall ops p0 p1,
             run_permitted ops p0 = Some p1 ->
             invariant (this p0) ->
             (frameRequests p0 <> [] ->
                domRendered (this p0) = true /\ _reopen (this p0) = false /\
                open (this p0) = false) ->
             invariant (this p1) /\
             (frameRequests p1 <> [] ->
                domRendered (this p1) = true /\ _reopen (this p1) = false /\
                open (this p1) = false)).
  { clear. induction ops as [|op ops IH]; intros p0 p1 H Hi Hq; simpl in H.
    - inversion H; subst. split; assumption.
    - destruct (permitted op p0) eqn:E; [|discriminate H].
      destruct (scheduled_step op p0 E Hi Hq) as [Hi' Hq'].
      apply (IH _ _ H Hi' Hq'). }
  apply (G ops constructor p H invariant_constructor).
  intros Hne. contradiction Hne. reflexivity.
Qed.

Lemma invariant_under_scheduling_witness :
  run [Show; AnimationFrame; MouseOver; TransitionEnd; Show; AfterRendering;
       AnimationFrame; MouseLeave; TransitionEnd] constructor
    = constructor /\
  invariant (this constructor) /\
  (frameRequests constructor <> [] ->
     domRendered (this constructor) = true /\ _reopen (this constructor) = false /\
     open (this constructor) = false).
Proof.
  apply (invariant_under_scheduling
           [Show; AnimationFrame; MouseOver; TransitionEnd; Show; AfterRendering;
            AnimationFrame; MouseLeave; TransitionEnd] constructor).
  reflexivity.
Defined.

(* ================================================================== *)
(** * Upload collection: renaming again *)

(** A confirmed rename keeps the extension of the file: when the item
    has an extension and the entered text is not empty, the new name has
    the same extension and the entered text (dots included) as its base
    name, so that a further rename keeps the extension again.  With an
    empty text the new name is the bare extension, which then counts as
    a name without extension. *)
Theorem rename_preserves_extension : forall (it : Item) (text : string),
  _fileExtension (fileName it) <> EmptyString ->
  (text <> EmptyString ->
     _fileExtension (fileName (_onRename (typeKeys text (_onDetailClick it))))
       = _fileExtension (fileName it) /\
     _fileNameWithoutExtension
       (fileName (_onRename (typeKeys text (_onDetailClick it)))) = text) /\
  _fileExtension (fileName (_onRename (typeKeys EmptyString (_onDetailClick it))))
    = EmptyString.
Proof.
  intros [i n ed inp hd dd] text Hext.
  unfold _onRename, typeKeys, _onDetailClick. simpl in *.
  destruct (extension_after_last_dot n) as [H|(b & e & Hn & He & Hb & Hx & Hbase)];
    [contradiction|].
  rewrite Hx. destruct (split_of_append text e He) as [H1 H2]. split.
  - intros Ht. unfold _fileExtension, _fileNameWithoutExtension.
    rewrite H1, H2. destruct text; [contradiction|]. split; reflexivity.
  - unfold _fileExtension. simpl.
    destruct (no_dot_no_split e He) as [Hbe Hae]. rewrite Hbe. reflexivity.
Qed.

Lemma rename_preserves_extension_witness :
  ("last.reports-edited"%string <> EmptyString ->
     _fileExtension
       (fileName (_onRename (typeKeys "last.reports-edited"
          (_onDetailClick
             (mkItem "errorState" "latest-reports.pdf" false "" false false)))))
       = _fileExtension
           (fileName (mkItem "errorState" "latest-reports.pdf" false "" false false)) /\
     _fileNameWithoutExtension
       (fileName (_onRename (typeKeys "last.reports-edited"
          (_onDetailClick
             (mkItem "errorState" "latest-reports.pdf" false "" false false)))))
       = "last.reports-edited"%string) /\
  _fileExtension
    (fileName (_onRename (typeKeys EmptyString
       (_onDetailClick
          (mkItem "errorState" "latest-reports.pdf" false "" false false)))))
    = EmptyString.
Proof.
  apply (rename_preserves_extension
           (mkItem "errorState" "latest-reports.pdf" false "" false false)
           "last.reports-edited").
  simpl. discriminate.
Defined.
